(** * sup: the run loop, the local client and the command line

    A shallow embedding of [internal/sup/sup.go], [internal/sup/localhost.go]
    and [cmd/sup/main.go].  Go values are modelled as follows.

    - [string] is a Go string (a byte sequence); [String.length] is Go's
      [len].  [int] is [Z] for exit statuses and ports, and [nat] for the
      lengths and indices that the code only obtains from [len] and [range].
    - a pointer to a client is an index ([ref]) into a store of clients, so
      that the client list of the run and the client lists of the tasks alias
      the same objects, as they do in Go.
    - everything outside the process (the network, child processes, the
      clock, the environment, regular expressions) and the packages of the
      repository that the three files import are read from two records of
      oracles, [World] and [Process]; the code is a function of them.
    - what the process does is a list of [event]s, and a call ends with an
      [outcome]: it returns, the process exits, or a goroutine panics.
    - the goroutines of a task are run one after the other: the start
      loop, the stdin pump, the output pumps, the waiters.  The connectors
      and the waiters, whose results depend on who is first, act in the
      order that the world gives ([finished], [returned]).  The body of a
      goroutine is a definition of its own and runs as one step.  The runs
      that are modelled are those during which the operator sends no
      interrupt, so the signal trap of a task forwards nothing. *)

From Stdlib Require Import ZArith String Ascii List Bool Lia.
From stdpp Require Import base option list sorting strings gmap pretty.

Local Open Scope string_scope.
Local Open Scope Z_scope.
Local Open Scope nat_scope.
Local Open Scope list_scope.

(** ** Go's [error] values that the three files create or inspect *)

Inductive error : Type :=
| errors_New (msg : string)            (* errors.New(msg), fmt.Errorf *)
| errors_Join (e1 e2 : error)          (* errors.Join(e1, e2) *)
| ssh_ExitError (status : Z)           (* *ssh.ExitError, e.ExitStatus() = status *)
| exec_ExitError (status : Z)          (* *exec.ExitError of os/exec, from cmd.Wait() *)
| ErrTask (run : string) (msg : string). (* ErrTask{task, msg} *)

(** [strings.Repeat(s, n)] for a count that is not negative. *)
Fixpoint strings_Repeat (s : string) (n : nat) : string :=
  match n with
  | O => ""
  | S n' => s +:+ strings_Repeat s n'
  end.

(** ** pkg/colors: the constants the code reads.  The package is not among
    the sources, so its two constants are parameters of the development. *)

Class colors : Type := {
  ResetColor : string;       (* colors.ResetColor, the colour-reset escape *)
  Colors : list string       (* colors.Colors, the palette *)
}.

(** ** Pipes, commands and tasks *)

(** A pointer to a client. *)
Definition ref : Type := nat.

(** The standard stream a pipe of a child process is attached to. *)
Inductive stream : Type := Stdin | Stdout | Stderr.

(** One end of a pipe owned by a client; [closed] records [Close()]. *)
Record pipe : Type := mkPipe { attached : stream; closed : bool }.

(** [exec.Cmd]: program, arguments, and whether [Start] has succeeded. *)
Module Cmd.
Record t : Type := mk { Path : string; Args : list string; started : bool }.
End Cmd.

Definition exec_Command (name : string) (args : list string) : Cmd.t :=
  Cmd.mk name args false.

(** [Task] (declared in task.go, not among the sources): the three fields
    that sup.go and localhost.go read.  [Input] is the byte source; the
    model carries the bytes it delivers before it reports EOF. *)
Module Task.
Record t : Type := mk {
  Run : string;
  Clients : list ref;
  Input : option string
}.
End Task.

(** What the operating system answers while a local command is started:
    the results of [StdoutPipe], [StderrPipe], [StdinPipe] and [Start]. *)
Record exec_os : Type := {
  StdoutPipe_err : option error;
  StderrPipe_err : option error;
  StdinPipe_err : option error;
  Start_err : option string       (* err.Error() of the error of Start *)
}.

(** ** localhost.go *)

Module LocalhostClient.

Record t : Type := mk {
  cmd : option Cmd.t;
  user : string;
  stdin : option pipe;
  stdout : option pipe;
  stderr : option pipe;
  running : bool;
  env : string
}.

Definition set_cmd (c : t) (v : option Cmd.t) : t :=
  mk v (user c) (stdin c) (stdout c) (stderr c) (running c) (env c).
Definition set_user (c : t) (v : string) : t :=
  mk (cmd c) v (stdin c) (stdout c) (stderr c) (running c) (env c).
Definition set_stdin (c : t) (v : option pipe) : t :=
  mk (cmd c) (user c) v (stdout c) (stderr c) (running c) (env c).
Definition set_stdout (c : t) (v : option pipe) : t :=
  mk (cmd c) (user c) (stdin c) v (stderr c) (running c) (env c).
Definition set_stderr (c : t) (v : option pipe) : t :=
  mk (cmd c) (user c) (stdin c) (stdout c) v (running c) (env c).
Definition set_running (c : t) (v : bool) : t :=
  mk (cmd c) (user c) (stdin c) (stdout c) (stderr c) v (env c).

(** [&LocalhostClient{env: e}]: every other field has its zero value. *)
Definition new (e : string) : t :=
  mk None "" None None None false e.

(** [Connect]: [user.Current()] is the oracle [current]. *)
Definition Connect (current : string + error) (c : t) : t * option error :=
  match current with
  | inr err => (c, Some err)
  | inl u => (set_user c u, None)
  end.

(** [Run].  The receiver is updated in place, so the client as it is left
    is returned with the error, also on the paths that fail. *)
Definition Run (os : exec_os) (c : t) (task : Task.t) : t * option error :=
  if running c then (c, Some (errors_New "Command already running"))
  else
    let cmdArgs := ["-c"; env c +:+ Task.Run task] in
    let cmd := exec_Command "bash" cmdArgs in
    let c := set_cmd c (Some cmd) in
    match StdoutPipe_err os with
    | Some err => (set_stdout c None, Some err)
    | None =>
      let c := set_stdout c (Some (mkPipe Stdout false)) in
      match StderrPipe_err os with
      | Some err => (set_stderr c None, Some err)
      | None =>
        let c := set_stderr c (Some (mkPipe Stderr false)) in
        match StdinPipe_err os with
        | Some err => (set_stdin c None, Some err)
        | None =>
          let c := set_stdin c (Some (mkPipe Stdin false)) in
          match Start_err os with
          | Some msg => (c, Some (ErrTask (Task.Run task) msg))
          | None =>
            let c := set_cmd c (Some (Cmd.mk (Cmd.Path cmd) (Cmd.Args cmd) true)) in
            (set_running c true, None)
          end
        end
      end
    end.

(** [Wait]: [exit] is what [c.cmd.Wait()] returns. *)
Definition Wait (exit : option error) (c : t) : t * option error :=
  if negb (running c)
  then (c, Some (errors_New "trying to wait on stopped command"))
  else (set_running c false, exit).

Definition Close (c : t) : option error := None.

Definition Stdin (c : t) : option pipe := stdin c.
Definition Stderr (c : t) : option pipe := stderr c.
Definition Stdout (c : t) : option pipe := stdout c.

Definition Prefix `{colors} (c : t) : string * nat :=
  let host := user c +:+ "@localhost" +:+ " | " in
  (ResetColor +:+ host, String.length host).

(** [WriteClose]: [c.stdin.Close()].  A nil [stdin] is a nil interface
    value, and the call on it panics: the result is then [None]. *)
Definition WriteClose (c : t) : option t :=
  match stdin c with
  | None => None
  | Some p => Some (set_stdin c (Some (mkPipe (attached p) true)))
  end.

End LocalhostClient.

(** ** The remote client (ssh.go is not among the sources) *)

Module SSHClient.

(** Modelled from the spec: the declaration of [SSHClient] is missing.
    [env], [user] and [color] are the fields that the struct literal in
    sup.go sets; [host] is the address of the established session (the
    prefix is "<user>@<host> | "); the endpoints and [running] are the
    attributes every client has. *)
Record t : Type := mk {
  env : string;
  user : string;
  color : string;
  host : string;
  stdin : option pipe;
  stdout : option pipe;
  stderr : option pipe;
  running : bool
}.

(** [&SSHClient{env: e, user: u, color: k}] *)
Definition new (e u k : string) : t := mk e u k "" None None None false.

(** Modelled from the spec: [Connect] and [ConnectWith] are missing.  The
    session is negotiated outside the process: [dialled] is either the
    user and host of the session (the address may omit the user, which
    falls back to the network's) or the connect error. *)
Definition Connect (dialled : string * string + error) (c : t) : t * option error :=
  match dialled with
  | inr err => (c, Some err)
  | inl (u, h) => (mk (env c) u (color c) h (stdin c) (stdout c) (stderr c) (running c), None)
  end.

(** Modelled from the spec: [Prefix] is missing.  "The prefix is colored
    per-host and formatted <user>@<host> | "; "the printable length
    excludes any terminal color escape sequences". *)
Definition Prefix (c : t) : string * nat :=
  let host := user c +:+ "@" +:+ host c +:+ " | " in
  (color c +:+ host, String.length host).

(** Modelled from the spec: [Run] is missing.  "Fails with AlreadyRunning
    if invoked while running, otherwise starts the task's shell snippet
    and transitions to running.  After a successful Run, the three I/O
    endpoints are live."  [start] is the error of opening the session. *)
Definition Run (start : option error) (c : t) (task : Task.t) : t * option error :=
  if running c then (c, Some (errors_New "Session already running"))
  else match start with
       | Some err => (c, Some err)
       | None =>
         (mk (env c) (user c) (color c) (host c) (Some (mkPipe Stdin false))
             (Some (mkPipe Stdout false)) (Some (mkPipe Stderr false)) true, None)
       end.

(** Modelled from the spec: [Wait] is missing.  "Returns its exit error
    (including a structured ExitError carrying the numeric exit status)
    or nil; clears running." *)
Definition Wait (exit : option error) (c : t) : t * option error :=
  (mk (env c) (user c) (color c) (host c) (stdin c) (stdout c) (stderr c) false, exit).

(** Modelled from the spec: [WriteClose] is missing.  "Closes the
    standard-input writer."  As for the local client, there is no writer
    to close before the first [Run]. *)
Definition WriteClose (c : t) : option t :=
  match stdin c with
  | None => None
  | Some p =>
    Some (mk (env c) (user c) (color c) (host c) (Some (mkPipe (attached p) true))
             (stdout c) (stderr c) (running c))
  end.

End SSHClient.

(** ** The [Client] interface and its two implementations *)

Inductive Client : Type :=
| Local (c : LocalhostClient.t)
| Remote (c : SSHClient.t).

Definition Client_Prefix `{colors} (c : Client) : string * nat :=
  match c with
  | Local l => LocalhostClient.Prefix l
  | Remote r => SSHClient.Prefix r
  end.

Definition Client_Stdin (c : Client) : option pipe :=
  match c with
  | Local l => LocalhostClient.Stdin l
  | Remote r => SSHClient.stdin r
  end.

Definition Client_WriteClose (c : Client) : option Client :=
  match c with
  | Local l => Local <$> LocalhostClient.WriteClose l
  | Remote r => Remote <$> SSHClient.WriteClose r
  end.


(** ** internal/envs, internal/command, internal/network, internal/supfile:
    the declarations that sup.go and main.go use *)

Module EnvVar.
Record t : Type := mk { Key : string; Value : string }.
End EnvVar.

(** Modelled from the spec: [EnvList] is missing.  "An ordered sequence of
    (key, value) pairs with stable iteration order". *)
Definition EnvList : Type := list EnvVar.t.

(** Modelled from the spec: [EnvList.Set] is missing.  "Set updates an
    existing key in place or appends". *)
Fixpoint EnvList_Set (e : EnvList) (key value : string) : EnvList :=
  match e with
  | [] => [EnvVar.mk key value]
  | v :: rest =>
    if String.eqb (EnvVar.Key v) key then EnvVar.mk key value :: rest
    else v :: EnvList_Set rest key value
  end.

(** The entry of a key: the value of the first pair that carries it. *)
Fixpoint EnvList_Get (e : EnvList) (key : string) : option string :=
  match e with
  | [] => None
  | v :: rest =>
    if String.eqb (EnvVar.Key v) key then Some (EnvVar.Value v)
    else EnvList_Get rest key
  end.

(** Modelled from the spec: [EnvList.AsExport] is missing.  "Rendered for
    remote use as a concatenation of export KEY="VALUE"; fragments, one per
    entry".  The double quote is the byte 34. *)
Definition dquote : string := String (ascii_of_nat 34) "".

Fixpoint EnvList_AsExport (e : EnvList) : string :=
  match e with
  | [] => ""
  | v :: rest =>
    "export " +:+ EnvVar.Key v +:+ "=" +:+ dquote +:+ EnvVar.Value v +:+ dquote +:+ ";"
      +:+ EnvList_AsExport rest
  end.

(** Modelled from the spec: [command.Command] is missing; the fields are
    those of section 3 of the specification. *)
Module Command.
Record t : Type := mk {
  Name : string;
  Desc : string;
  Run : string;
  Local : string;
  Script : string;
  Upload : list (string * string);
  Stdin : bool;
  Once : bool;
  Serial : nat
}.
Definition set_Name (c : t) (n : string) : t :=
  mk n (Desc c) (Run c) (Local c) (Script c) (Upload c) (Stdin c) (Once c) (Serial c).
End Command.

(** [network.Network]: the fields that sup.go and main.go read or write. *)
Module Network.
Record t : Type := mk {
  Env : EnvList;
  Hosts : list string;
  Bastion : string;
  User : string;
  IdentityFile : string
}.
Definition set_Env (n : t) (e : EnvList) : t :=
  mk e (Hosts n) (Bastion n) (User n) (IdentityFile n).
Definition set_Hosts (n : t) (h : list string) : t :=
  mk (Env n) h (Bastion n) (User n) (IdentityFile n).
End Network.

(** [supfile.Supfile]: [Networks], [Commands] and [Targets] are looked up by
    name ([Get]); [Env] is the top-level environment. *)
Module Supfile.
Record t : Type := mk {
  Networks : gmap string Network.t;
  Commands : gmap string Command.t;
  Targets : gmap string (list string);
  Env : EnvList
}.
End Supfile.

(** ** sup.go *)

Module Stackup.
Record t : Type := mk {
  conf : Supfile.t;
  debug : bool;
  prefix : bool
}.
(** [New(conf)] *)
Definition New (conf : Supfile.t) : t := mk conf false false.
(** [Debug(value)], [Prefix(value)] *)
Definition Debug (sup : t) (value : bool) : t := mk (conf sup) value (prefix sup).
Definition Prefix (sup : t) (value : bool) : t := mk (conf sup) (debug sup) value.
End Stackup.

(** What lies outside [Stackup.Run]: the operating system, the network, the
    child processes, the scheduler, and [createTasks] (task.go is not among
    the sources). *)
Record World : Type := {
  (* user.Current(): the user name, or the error *)
  user_Current : string + error;
  (* SSHClient.Connect: from the client's user and the address, the user
     and host of the session, or the error *)
  ssh_Connect : string -> string -> string * string + error;
  (* SSHClient.ConnectWith(host, bastion.DialThrough) *)
  ssh_ConnectWith : string -> string -> string * string + error;
  (* the time at which the connector of host number i delivers; the
     channels hand over what they hold in the order of these times *)
  finished : nat -> nat;
  (* createTasks(cmd, clients, env): the clients it allocates (a command
     with a local part gets a client of its own) and the tasks; the last
     argument is the first free reference *)
  createTasks : Stackup.t -> Command.t -> list ref -> string -> nat ->
                list Client * list Task.t + error;
  (* starting the task's command on a local and on a remote client *)
  exec_start : ref -> Task.t -> exec_os;
  ssh_start : ref -> Task.t -> option error;
  (* what the process writes: its lines, and the error that ends the read *)
  proc_stdout : ref -> Task.t -> list string * option error;
  proc_stderr : ref -> Task.t -> list string * option error;
  (* the error of io.Copy(writer, task.Input) *)
  stdin_copy : Task.t -> option error;
  (* cmd.Wait() or session.Wait(): nil, or the exit error *)
  proc_exit : ref -> Task.t -> option error;
  (* the time at which c.Wait() of a client of the task returns; the
     waiters of the task act on their results in the order of these times *)
  returned : ref -> Task.t -> nat
}.

(** What the process does that can be observed from outside. *)
Inductive event : Type :=
| Dial (through_bastion : bool) (host : string)   (* Connect, ConnectWith *)
| Started (c : ref) (run : string)                (* c.Run(task) returned nil *)
| Stdout_line (line : string)                     (* a line on os.Stdout *)
| Stderr_line (line : string)                     (* a line on os.Stderr *)
| Fprint_Stderr (e : error)                       (* Fprintf(os.Stderr, "%v", e) *)
| Fprintf_Stderr (prefix : string) (e : error)    (* Fprintf(os.Stderr, "%s%v\n", prefix, e) *)
| Fprintln_Stderr (e : error)                     (* Fprintln(os.Stderr, e) *)
| Copy_stdin (writers : list (ref * option pipe)) (data : string)
| WriteClosed (c : ref)                           (* c.WriteClose() *)
| Closed (c : ref)                                (* remote.Close() *)
| Usage_networks                                  (* networkUsage(conf) *)
| Usage_commands                                  (* conf.CmdUsage() *)
| Usage_options                                   (* ErrUsage, "Options:", flags.PrintDefaults() *)
| Version_line (v : string).                      (* Fprintln(os.Stderr, sup.VERSION) *)

(** How a call of [Stackup.Run] ends: it returns, a goroutine calls
    [os.Exit(code)], or a goroutine panics.  [Exited] carries the argument
    of [os.Exit]. *)
Inductive outcome : Type :=
| Returned (err : option error)
| Exited (code : Z)
| Panicked.

Record state : Type := mkState { store : list Client; out : list event }.

Definition emit (evs : list event) (st : state) : state :=
  mkState (store st) (out st ++ evs).

Definition update (r : ref) (c : Client) (st : state) : state :=
  mkState (<[r := c]> (store st)) (out st).

Definition Client_Run (w : World) (r : ref) (c : Client) (task : Task.t)
  : Client * option error :=
  match c with
  | Local l => let '(l', e) := LocalhostClient.Run (exec_start w r task) l task in (Local l', e)
  | Remote s => let '(s', e) := SSHClient.Run (ssh_start w r task) s task in (Remote s', e)
  end.

Definition Client_Wait (w : World) (r : ref) (c : Client) (task : Task.t)
  : Client * option error :=
  match c with
  | Local l => let '(l', e) := LocalhostClient.Wait (proc_exit w r task) l in (Local l', e)
  | Remote s => let '(s', e) := SSHClient.Wait (proc_exit w r task) s in (Remote s', e)
  end.

Section Run.
Context `{colors}.
Variable w : World.

(** The export appended to [env] for a host (lines 71 and 85). *)
Definition hostEnv (env host : string) : string :=
  env +:+ "export SUP_HOST=" +:+ dquote +:+ host +:+ dquote +:+ ";".

(** What a connector leaves behind: a client on [clientCh], an error on
    [errCh], or a panic (an index into an empty palette). *)
Inductive connected : Type :=
| Sent (c : Client)
| Failed (e : error)
| Crashed.

(** The body of the goroutine of lines 65-102, for host [i]. *)
Definition connector (net : Network.t) (env : string) (bastion : bool)
           (i : nat) (host : string) : connected :=
  if String.eqb host "localhost" then
    let local := LocalhostClient.new (hostEnv env host) in
    match LocalhostClient.Connect (user_Current w) local with
    | (_, Some err) => Failed (errors_Join err (errors_New "connecting to localhost failed"))
    | (local, None) => Sent (Local local)
    end
  else
    match Colors !! (i mod length Colors) with
    | None => Crashed
    | Some color =>
      let remote := SSHClient.new (hostEnv env host) (Network.User net) color in
      if bastion then
        match SSHClient.Connect (ssh_ConnectWith w (SSHClient.user remote) host) remote with
        | (_, Some err) =>
          Failed (errors_Join err (errors_New "connecting to remote host through bastion failed"))
        | (remote, None) => Sent (Remote remote)
        end
      else
        match SSHClient.Connect (ssh_Connect w (SSHClient.user remote) host) remote with
        | (_, Some err) => Failed (errors_Join err (errors_New "connecting to remote host failed"))
        | (remote, None) => Sent (Remote remote)
        end
    end.

(** The dial a connector attempts, if any. *)
Definition connectorDial (bastion : bool) (host : string) : list event :=
  if String.eqb host "localhost" then [] else [Dial bastion host].

(** Lines 109-120: draining [clientCh]. *)
Fixpoint drain (ch : list Client) (maxLen : nat) (clients : list Client)
  : nat * list Client :=
  match ch with
  | [] => (maxLen, clients)
  | client :: ch' =>
    let '(_, prefixLen) := Client_Prefix client in
    let maxLen := if maxLen <? prefixLen then prefixLen else maxLen in
    drain ch' maxLen (clients ++ [client])
  end.

(** [closeRemotes] *)
Fixpoint closeRemotes (clients : list (ref * Client)) : list event :=
  match clients with
  | [] => []
  | (r, Remote _) :: rest => Closed r :: closeRemotes rest
  | (r, Local _) :: rest => closeRemotes rest
  end.

(** Lines 150-155 and again lines 241-249: the prefix of client [c] as the
    run loop uses it.  [var prefix string] is the empty string. *)
Definition paddedPrefix (usePrefix : bool) (maxLen : nat) (c : Client) : string :=
  if usePrefix then
    let '(prefix, prefixLen) := Client_Prefix c in
    if String.length prefix <? maxLen
    then strings_Repeat " " (maxLen - prefixLen) +:+ prefix
    else prefix
  else "".

(** The type assertion [err.( *ssh.ExitError)]. *)
Definition as_ssh_ExitError (err : error) : option Z :=
  match err with
  | ssh_ExitError status => Some status
  | _ => None
  end.

(** Lines 238-261, the branch [err != nil] of a waiter: what it prints
    and the status it passes to [os.Exit]. *)
Definition waiterFailed (usePrefix : bool) (maxLen : nat) (c : Client) (err : error)
  : list event * Z :=
  let prefix := paddedPrefix usePrefix maxLen c in
  match as_ssh_ExitError err with
  | Some status =>
    if negb (status =? 15)%Z
    then ([Fprintf_Stderr prefix err], status)
    else ([Fprintf_Stderr prefix err], 1%Z)
  | None => ([Fprintf_Stderr prefix err], 1%Z)
  end.
End Run.

Section RunLoop.
Context `{colors}.
Variable w : World.
Variable sup : Stackup.t.
Variable maxLen : nat.

(** Lines 144-189: the loop that starts the task on its clients.  A failed
    start returns from [Run]; otherwise the loop leaves the recorded stdin
    writers and, for every client, the prefix its two pumps were given. *)
Fixpoint startClients (task : Task.t) (cs : list ref)
         (writers : list (ref * option pipe)) (pumps : list (ref * string))
         (st : state)
  : state * (list (ref * option pipe) * list (ref * string) + outcome) :=
  match cs with
  | [] => (st, inl (writers, pumps))
  | r :: cs' =>
    match store st !! r with
    | None => (st, inr Panicked)              (* a nil client *)
    | Some c =>
      let prefix := paddedPrefix (Stackup.prefix sup) maxLen c in
      let '(c', err) := Client_Run w r c task in
      let st := update r c' st in
      match err with
      | Some err =>
        (st, inr (Returned (Some (errors_Join err (errors_New (prefix +:+ "task failed"))))))
      | None =>
        startClients task cs' (writers ++ [(r, Client_Stdin c')]) (pumps ++ [(r, prefix)])
                     (emit [Started r (Task.Run task)] st)
      end
    end
  end.

(** Lines 201-203: [c.WriteClose()] for every [c] of the given list. *)
Fixpoint closeStdins (cs : list ref) (st : state) : state * option outcome :=
  match cs with
  | [] => (st, None)
  | r :: cs' =>
    match store st !! r with
    | None => (st, Some Panicked)
    | Some c =>
      match Client_WriteClose c with
      | None => (st, Some Panicked)          (* Close() on a nil stdin *)
      | Some c' => closeStdins cs' (emit [WriteClosed r] (update r c' st))
      end
    end
  end.

(** Lines 192-205: the stdin pump.  [clients] is the client list of the
    run, [writers] the writers recorded by [startClients]. *)
Definition stdinPump (clients : list ref) (task : Task.t)
           (writers : list (ref * option pipe)) (st : state) : state * option outcome :=
  match Task.Input task with
  | None => (st, None)
  | Some data =>
    let st := emit [Copy_stdin writers data] st in
    let st := match stdin_copy w task with
              | Some err =>
                emit [Fprint_Stderr (errors_Join err (errors_New "copying STDIN failed"))] st
              | None => st
              end in
    closeStdins clients st
  end.

(** Lines 165-186: the two pumps of one client, run to the end of the
    streams.  [prefixer.New(r, prefix)] puts [prefix] before every line. *)
Definition pump (task : Task.t) (p : ref * string) : list event :=
  let '(r, prefix) := p in
  let '(outl, oerr) := proc_stdout w r task in
  let '(errl, eerr) := proc_stderr w r task in
  map (fun l => Stdout_line (prefix +:+ l)) outl
    ++ match oerr with
       | Some err =>
         [Fprint_Stderr (errors_Join err (errors_New (prefix +:+ "reading STDOUT failed")))]
       | None => []
       end
    ++ map (fun l => Stderr_line (prefix +:+ l)) errl
    ++ match eerr with
       | Some err =>
         [Fprint_Stderr (errors_Join err (errors_New (prefix +:+ "reading STDERR failed")))]
       | None => []
       end.

(** Lines 232-263: the waiters, one per client of the task, acting in the
    order [cs]. *)
Fixpoint waiters (task : Task.t) (cs : list ref) (st : state) : state * option outcome :=
  match cs with
  | [] => (st, None)
  | r :: cs' =>
    match store st !! r with
    | None => (st, Some Panicked)
    | Some c =>
      let '(c', err) := Client_Wait w r c task in
      let st := update r c' st in
      match err with
      | None => waiters task cs' st
      | Some err =>
        let '(evs, code) := waiterFailed (Stackup.prefix sup) maxLen c' err in
        (emit evs st, Some (Exited code))
      end
    end
  end.

(** The waiters of a task are goroutines, one per client, started
    together (lines 232-263): the order in which they act is the order in
    which the [Wait]s of their clients return. *)
Definition earlier (a b : nat * ref) : Prop := fst a <= fst b.

#[local] Instance earlier_dec : RelDecision earlier :=
  fun a b => decide (fst a <= fst b).

Definition waitOrder (task : Task.t) : list ref :=
  (merge_sort earlier (map (fun r => (returned w r task, r)) (Task.Clients task))).*2.

(** Lines 137-271: one task. *)
Definition runTask (clients : list ref) (task : Task.t) (st : state)
  : state * option outcome :=
  match startClients task (Task.Clients task) [] [] st with
  | (st, inr o) => (st, Some o)
  | (st, inl (writers, pumps)) =>
    match stdinPump clients task writers st with
    | (st, Some o) => (st, Some o)
    | (st, None) => waiters task (waitOrder task) (emit (concat (map (pump task) pumps)) st)
    end
  end.

Fixpoint runTasks (clients : list ref) (tasks : list Task.t) (st : state)
  : state * option outcome :=
  match tasks with
  | [] => (st, None)
  | task :: rest =>
    match runTask clients task st with
    | (st, Some o) => (st, Some o)
    | (st, None) => runTasks clients rest st
    end
  end.

(** Lines 129-272: the commands, one after the other. *)
Fixpoint runCommands (clients : list ref) (env : string) (commands : list Command.t)
         (st : state) : state * option outcome :=
  match commands with
  | [] => (st, None)
  | cmd :: rest =>
    match createTasks w sup cmd clients env (length (store st)) with
    | inr err => (st, Some (Returned (Some (errors_Join err (errors_New "creating task failed")))))
    | inl (fresh, tasks) =>
      match runTasks clients tasks (mkState (store st ++ fresh) (out st)) with
      | (st, Some o) => (st, Some o)
      | (st, None) => runCommands clients env rest st
      end
    end
  end.
End RunLoop.

Section StackupRun.
Context `{colors}.
Variable w : World.

Fixpoint sents (ch : list connected) : list Client :=
  match ch with
  | [] => []
  | Sent c :: rest => c :: sents rest
  | _ :: rest => sents rest
  end.

Fixpoint faileds (ch : list connected) : list error :=
  match ch with
  | [] => []
  | Failed e :: rest => e :: faileds rest
  | _ :: rest => faileds rest
  end.

Definition crashed (ch : list connected) : bool :=
  existsb (fun x => match x with Crashed => true | _ => false end) ch.

(** Lines 105-107: after [wg.Wait()] the channels hold what the connectors
    have sent, in the order in which they finished. *)
Definition sooner (a b : nat * connected) : Prop := fst a <= fst b.

#[local] Instance sooner_dec : RelDecision sooner :=
  fun a b => decide (fst a <= fst b).

Definition delivered (results : list connected) : list connected :=
  (merge_sort sooner (imap (fun i r => (finished w i, r)) results)).*2.

(** Lines 48-55: the connection to the bastion, when the network has one. *)
Definition connectBastion (net : Network.t) : option error :=
  if negb (String.eqb (Network.Bastion net) "")
  then snd (SSHClient.Connect (ssh_Connect w "" (Network.Bastion net))
                              (SSHClient.new "" "" ""))
  else None.

(** Lines 57-107: a connector for every host of the network, with the
    index of the host, and what the channels hold when all have finished. *)
Definition connectAll (net : Network.t) (env : string) (bastion : bool)
  : list connected :=
  delivered (imap (connector w net env bastion) (Network.Hosts net)).

(** Lines 109-275: the run from the drain of the channels on.  [dials] are
    the events so far, [ch] is what the channels hold. *)
Definition runConnected (sup : Stackup.t) (env : string) (commands : list Command.t)
           (dials : list event) (ch : list connected) : list event * outcome :=
  if crashed ch then (dials, Panicked)
  else
    let '(maxLen, clients) := drain (sents ch) 0 [] in
    let refs := seq 0 (length clients) in
    let deferred := closeRemotes (zip refs clients) in
    match faileds ch with
    | err :: _ =>
      (dials ++ deferred,
       Returned (Some (errors_Join err (errors_New "connecting to clients failed"))))
    | [] =>
      match runCommands w sup maxLen refs env commands (mkState clients dials) with
      | (st, Some (Returned err)) => (out st ++ deferred, Returned err)
      | (st, Some o) => (out st, o)
      | (st, None) => (out st ++ deferred, Returned None)
      end
    end.

(** [Stackup.Run(net, envVars, commands...)]: what the process did, and
    how the call ended. *)
Definition Run (sup : Stackup.t) (net : Network.t) (envVars : EnvList)
           (commands : list Command.t) : list event * outcome :=
  if (length commands =? 0) then ([], Returned (Some (errors_New "no commands to be run")))
  else
    let env := EnvList_AsExport envVars in
    let hasBastion := negb (String.eqb (Network.Bastion net) "") in
    match connectBastion net with
    | Some err =>
      ([Dial false (Network.Bastion net)],
       Returned (Some (errors_Join err (errors_New "connecting to bastion failed"))))
    | None =>
      let dials := (if hasBastion then [Dial false (Network.Bastion net)] else [])
                     ++ concat (map (connectorDial hasBastion) (Network.Hosts net)) in
      runConnected sup env commands dials (connectAll net env hasBastion)
    end.
End StackupRun.

(** ** main.go *)

(** [flags.Flags] (internal/flags is not among the sources): the fields
    that main.go reads.  [EnvVars] holds the [-e KEY=VAL] options. *)
Module Flags.
Record t : Type := mk {
  ShowHelp : bool;
  ShowVersion : bool;
  File : string;
  OnlyHosts : string;
  ExceptHosts : string;
  SshConfig : string;
  EnvVars : list (string * string);
  Debug : bool;
  DisablePrefix : bool
}.
End Flags.

(** [sshconfig.SSHHost] of github.com/mikkeloscar/sshconfig *)
Module SSHHost.
Record t : Type := mk {
  Host : list string;
  HostName : string;
  Port : Z;
  User : string;
  IdentityFile : string
}.
End SSHHost.

(** [time.Now().UTC()], broken down. *)
Module Time.
Record t : Type := mk {
  year : nat; month : nat; day : nat;
  hour : nat; minute : nat; second : nat
}.
End Time.

(** Two and four decimal digits. *)
Definition digit (d : nat) : ascii := ascii_of_nat (48 + d mod 10).

Definition digits2 (n : nat) : string :=
  String (digit (n / 10)) (String (digit n) "").

Definition digits4 (n : nat) : string := digits2 (n / 100) +:+ digits2 (n mod 100).

(** [t.Format(time.RFC3339)] for a time in UTC and a year below 10000: the
    layout 2006-01-02T15:04:05Z07:00 prints the zone of UTC as Z. *)
Definition Format_RFC3339 (t : Time.t) : string :=
  digits4 (Time.year t) +:+ "-" +:+ digits2 (Time.month t) +:+ "-"
    +:+ digits2 (Time.day t) +:+ "T" +:+ digits2 (Time.hour t) +:+ ":"
    +:+ digits2 (Time.minute t) +:+ ":" +:+ digits2 (Time.second t) +:+ "Z".

(** What lies outside [main]: the command line, the environment, the
    clock, the file system, the packages of the repository that are not
    among the sources, and the regular expressions of Go's [regexp]. *)
Record Process : Type := {
  flag : Flags.t;                                   (* flags.New() *)
  Args : list string;                               (* flags.Args() *)
  Getenv : string -> string;                        (* os.Getenv *)
  Now_UTC : Time.t;                                 (* time.Now().UTC() *)
  ReadFile : string -> string + error;              (* os.ReadFile *)
  HomeDir : string + error;                         (* user.Current(), usr.HomeDir *)
  filepath_Join : string -> string -> string;
  NewSupfile : string -> Supfile.t + error;         (* supfile.NewSupfile *)
  Network_SetEnvs : Network.t -> list (string * string) -> Network.t;
  ParseInventory : Network.t -> list string + error;
  EnvList_SetEnvs : EnvList -> list (string * string) -> EnvList + error;
  Regexp : Type;
  CompilePOSIX : string -> Regexp + error;          (* regexp.CompilePOSIX *)
  MatchString : Regexp -> string -> bool;           (* expr.MatchString *)
  ParseSSHConfig : string -> list SSHHost.t + error;
  world : World
}.

Definition VERSION : string := "0.5".

Definition ErrUsage : error :=
  errors_New "Usage: sup [OPTIONS] NETWORK COMMAND [...]
       sup [ --help | -v | --version ]".
Definition ErrUnknownNetwork : error := errors_New "Unknown network".
Definition ErrNetworkNoHosts : error := errors_New "No hosts defined for a given network".
Definition ErrCmd_text : string := "Unknown command/target".
Definition ErrCmd : error := errors_New ErrCmd_text.
Definition ErrTargetNoCommands : error := errors_New "No commands defined for a given target".
Definition ErrConfigFile : error := errors_New "Unknown ssh_config file".

(** [fmt.Errorf("%v: %v", ErrCmd, name)] *)
Definition ErrCmd_for (name : string) : error :=
  errors_New (ErrCmd_text +:+ ": " +:+ name).

Section ParseArgs.
Variable p : Process.
Variable conf : Supfile.t.

(** Lines 121-130: the loop over the commands of a target. *)
Fixpoint targetLoop (target : list string) (commands : list Command.t)
  : list Command.t + error :=
  match target with
  | [] => inl commands
  | cmdName :: rest =>
    match Supfile.Commands conf !! cmdName with
    | None => inr (ErrCmd_for cmdName)
    | Some cmd => targetLoop rest (commands ++ [Command.set_Name cmd cmdName])
    end
  end.

(** Lines 116-144: the loop over [args[1:]]. *)
Fixpoint argsLoop (names : list string) (commands : list Command.t)
  : list Command.t + error :=
  match names with
  | [] => inl commands
  | name :: rest =>
    let isTarget := Supfile.Targets conf !! name in
    match (match isTarget with
           | Some target => targetLoop target commands
           | None => inl commands
           end) with
    | inr err => inr err
    | inl commands =>
      let isCommand := Supfile.Commands conf !! name in
      let commands := match isCommand with
                      | Some cmd => commands ++ [Command.set_Name cmd name]
                      | None => commands
                      end in
      if negb (bool_decide (is_Some isTarget)) && negb (bool_decide (is_Some isCommand))
      then inr (ErrCmd_for name)
      else argsLoop rest commands
    end
  end.

(** Lines 100-114: the default entries of [net.Env]. *)
Definition defaultEnv (env : EnvList) (network : string) : EnvList :=
  let env := EnvList_Set env "SUP_NETWORK" network in
  let env := EnvList_Set env "SUP_TIME" (Format_RFC3339 (Now_UTC p)) in
  let env := if negb (String.eqb (Getenv p "SUP_TIME") "")
             then EnvList_Set env "SUP_TIME" (Getenv p "SUP_TIME")
             else env in
  if negb (String.eqb (Getenv p "SUP_USER") "")
  then EnvList_Set env "SUP_USER" (Getenv p "SUP_USER")
  else EnvList_Set env "SUP_USER" (Getenv p "USER").

(** [parseArgs(conf)]: what it prints, and the network and the commands,
    or the error. *)
Definition parseArgs : list event * (Network.t * list Command.t + error) :=
  let args := Args p in
  match args with
  | [] => ([Usage_networks], inr ErrUsage)
  | network :: names =>
    match Supfile.Networks conf !! network with
    | None => ([Usage_networks], inr ErrUnknownNetwork)
    | Some net =>
      let net := Network_SetEnvs p net (Flags.EnvVars (flag p)) in
      match ParseInventory p net with
      | inr err => ([], inr err)
      | inl hosts =>
        let net := Network.set_Hosts net (Network.Hosts net ++ hosts) in
        if length (Network.Hosts net) =? 0
        then ([Usage_networks], inr ErrNetworkNoHosts)
        else if length args <? 2
        then ([Usage_commands], inr ErrUsage)
        else
          let net := Network.set_Env net (defaultEnv (Network.Env net) network) in
          match argsLoop names [] with
          | inr err => ([Usage_commands], inr err)
          | inl commands => ([], inl (net, commands))
          end
      end
    end
  end.
End ParseArgs.

(** A step of [main] either goes on with a value or ends the process: it
    has printed [evs] and called [os.Exit(code)], or has panicked. *)
Inductive step (A : Type) : Type :=
| Go (a : A)
| Stop (evs : list event) (o : outcome).
Arguments Go {A} a.
Arguments Stop {A} evs o.

Section Main.
Context `{colors}.
Variable p : Process.

(** [resolvePath(path)]; [None] is the panic of [path[:2]] on a path of
    one byte. *)
Definition resolvePath (path : string) : option string :=
  if String.eqb path "" then Some ""
  else if String.length path <? 2 then None
  else if String.eqb (substring 0 2 path) "~/" then
    match HomeDir p with
    | inl home => Some (filepath_Join p home (substring 2 (String.length path - 2) path))
    | inr _ => Some path
    end
  else Some path.

(** Lines 218-222: the hosts that match [expr], in order. *)
Fixpoint onlyLoop (expr : Regexp p) (range : list string) (hosts : list string)
  : list string :=
  match range with
  | [] => hosts
  | host :: rest =>
    if MatchString p expr host then onlyLoop expr rest (hosts ++ [host])
    else onlyLoop expr rest hosts
  end.

(** Lines 242-246: the hosts that do not match [expr], in order. *)
Fixpoint exceptLoop (expr : Regexp p) (range : list string) (hosts : list string)
  : list string :=
  match range with
  | [] => hosts
  | host :: rest =>
    if negb (MatchString p expr host) then exceptLoop expr rest (hosts ++ [host])
    else exceptLoop expr rest hosts
  end.

(** Lines 208-230: the [--only] flag. *)
Definition onlyHosts (net : Network.t) : step Network.t :=
  if negb (String.eqb (Flags.OnlyHosts (flag p)) "") then
    match CompilePOSIX p (Flags.OnlyHosts (flag p)) with
    | inr err => Stop [Fprintln_Stderr err] (Exited 1)
    | inl expr =>
      let hosts := onlyLoop expr (Network.Hosts net) [] in
      if length hosts =? 0 then
        Stop [Fprintln_Stderr
                (errors_New ("no hosts match --only '" +:+ Flags.OnlyHosts (flag p)
                               +:+ "' regexp"))] (Exited 1)
      else Go (Network.set_Hosts net hosts)
    end
  else Go net.

(** Lines 232-254: the [--except] flag.  The message names
    [flag.OnlyHosts], as the source does. *)
Definition exceptHosts (net : Network.t) : step Network.t :=
  if negb (String.eqb (Flags.ExceptHosts (flag p)) "") then
    match CompilePOSIX p (Flags.ExceptHosts (flag p)) with
    | inr err => Stop [Fprintln_Stderr err] (Exited 1)
    | inl expr =>
      let hosts := exceptLoop expr (Network.Hosts net) [] in
      if length hosts =? 0 then
        Stop [Fprintln_Stderr
                (errors_New ("no hosts left after --except '" +:+ Flags.OnlyHosts (flag p)
                               +:+ "' regexp"))] (Exited 1)
      else Go (Network.set_Hosts net hosts)
    end
  else Go net.

(** Lines 266-272: the map from host alias to its entry. *)
Definition confMapOf (confHosts : list SSHHost.t) : gmap string SSHHost.t :=
  foldl (fun m conf => foldl (fun m host => <[host := conf]> m) m (SSHHost.Host conf))
        ∅ confHosts.

(** Lines 275-282: the loop ranges over the hosts the network had when it
    began; [None] is the panic of [resolvePath]. *)
Fixpoint sshconfigLoop (confMap : gmap string SSHHost.t) (range : list string)
         (net : Network.t) : option Network.t :=
  match range with
  | [] => Some net
  | host :: rest =>
    match confMap !! host with
    | Some conf =>
      match resolvePath (SSHHost.IdentityFile conf) with
      | None => None
      | Some identityFile =>
        sshconfigLoop confMap rest
          (Network.mk (Network.Env net)
                      [SSHHost.HostName conf +:+ ":" +:+ pretty (SSHHost.Port conf)]
                      (Network.Bastion net) (SSHHost.User conf) identityFile)
      end
    | None => sshconfigLoop confMap rest net
    end
  end.

(** Lines 256-283: the [--sshconfig] flag. *)
Definition sshConfig (net : Network.t) : step Network.t :=
  if negb (String.eqb (Flags.SshConfig (flag p)) "") then
    match resolvePath (Flags.SshConfig (flag p)) with
    | None => Stop [] Panicked
    | Some path =>
      match ParseSSHConfig p path with
      | inr err => Stop [Fprintln_Stderr err] (Exited 1)
      | inl confHosts =>
        match sshconfigLoop (confMapOf confHosts) (Network.Hosts net) net with
        | None => Stop [] Panicked
        | Some net => Go net
        end
      end
    end
  else Go net.

(** Lines 285-289: [vars.Set] over [append(conf.Env, net.Env...)]. *)
Definition mergeEnv (conf : Supfile.t) (net : Network.t) : EnvList :=
  foldl (fun vars val => EnvList_Set vars (EnvVar.Key val) (EnvVar.Value val))
        [] (Supfile.Env conf ++ Network.Env net).

(** Lines 201-311: [main] from the parsed configuration on. *)
Definition mainWith (conf : Supfile.t) : list event * outcome :=
  match parseArgs p conf with
  | (evs, inr err) => (evs ++ [Fprintln_Stderr err], Exited 1)
  | (evs, inl (net, commands)) =>
    match onlyHosts net with
    | Stop evs' o => (evs ++ evs', o)
    | Go net =>
      match exceptHosts net with
      | Stop evs' o => (evs ++ evs', o)
      | Go net =>
        match sshConfig net with
        | Stop evs' o => (evs ++ evs', o)
        | Go net =>
          match EnvList_SetEnvs p (mergeEnv conf net) (Flags.EnvVars (flag p)) with
          | inr err => (evs ++ [Fprintln_Stderr err], Exited 1)
          | inl vars =>
            let app := Stackup.New conf in
            let app := Stackup.Debug app (Flags.Debug (flag p)) in
            let app := Stackup.Prefix app (negb (Flags.DisablePrefix (flag p))) in
            match Run (world p) app net vars commands with
            | (evs', Returned (Some err)) => (evs ++ evs' ++ [Fprintln_Stderr err], Exited 1)
            | (evs', Returned None) => (evs ++ evs', Returned None)
            | (evs', o) => (evs ++ evs', o)
            end
          end
        end
      end
    end
  end.

(** [main]: lines 164-199, then [mainWith]. *)
Definition main : list event * outcome :=
  if Flags.ShowHelp (flag p) then ([Usage_options], Returned None)
  else if Flags.ShowVersion (flag p) then ([Version_line VERSION], Returned None)
  else
    let file := if String.eqb (Flags.File (flag p)) "" then "./Supfile"
                else Flags.File (flag p) in
    match resolvePath file with
    | None => ([], Panicked)
    | Some path =>
      match (match ReadFile p path with
             | inl data => inl data
             | inr firstErr =>
               match ReadFile p "./Supfile.yml" with
               | inl data => inl data
               | inr err => inr [Fprintln_Stderr firstErr; Fprintln_Stderr err]
               end
             end) with
      | inr evs => (evs, Exited 1)
      | inl data =>
        match NewSupfile p data with
        | inr err => ([Fprintln_Stderr err], Exited 1)
        | inl conf => mainWith conf
        end
      end
    end.
End Main.

(** ** Sample values for the examples: a palette, a world, a configuration *)

Definition ESC : string := String (ascii_of_nat 27) "".

(** The ANSI escapes: reset, then green, yellow, cyan. *)
Definition ansi : colors :=
  {| ResetColor := ESC +:+ "[0m";
     Colors := [ESC +:+ "[32m"; ESC +:+ "[33m"; ESC +:+ "[36m"] |}.

Definition os_ok : exec_os :=
  {| StdoutPipe_err := None; StderrPipe_err := None; StdinPipe_err := None;
     Start_err := None |}.

(** A [createTasks] for commands with [run], [once] and [stdin]: one task
    over the clients, or over the first client when [once] is set; the
    task reads the controller's standard input, here the bytes abc, when
    [stdin] is set. *)
Definition sample_createTasks (sup : Stackup.t) (cmd : Command.t) (clients : list ref)
           (env : string) (next : nat) : list Client * list Task.t + error :=
  let clients := if Command.Once cmd then take 1 clients else clients in
  inl ([], [Task.mk (Command.Run cmd) clients
                    (if Command.Stdin cmd then Some "abc" else None)]).

(** A world in which the user is ci, every dial and every start succeeds,
    the connectors finish in the order of the hosts, and every process
    prints the line hello and exits as [exit] says, the clients of a task
    in their order. *)
Definition sample_world (exit : ref -> Task.t -> option error) : World :=
  {| user_Current := inl "ci";
     ssh_Connect := fun user host => inl (user, host);
     ssh_ConnectWith := fun user host => inl (user, host);
     finished := fun i => i;
     createTasks := sample_createTasks;
     exec_start := fun _ _ => os_ok;
     ssh_start := fun _ _ => None;
     proc_stdout := fun _ _ => (["hello"], None);
     proc_stderr := fun _ _ => ([], None);
     stdin_copy := fun _ => None;
     proc_exit := exit;
     returned := fun r _ => r |}.

Definition exit_ok : ref -> Task.t -> option error := fun _ _ => None.

Definition sample_command (name run : string) (stdin once : bool) : Command.t :=
  Command.mk name "" run "" "" [] stdin once 0.

Definition sample_network (hosts : list string) : Network.t :=
  Network.mk [] hosts "" "deploy" "".

Definition sample_sup : Stackup.t := Stackup.Prefix (Stackup.New (Supfile.mk ∅ ∅ ∅ [])) true.

(** A local client that has connected as ci, and a task for it. *)
Definition sample_local : LocalhostClient.t :=
  LocalhostClient.set_user (LocalhostClient.new "export A=1;") "ci".

Definition sample_task : Task.t := Task.mk "echo hello" [0] None.

(** A remote client of the host web1 on which a task is running, and the
    exits of a world whose processes end with a given status. *)
Definition sample_remote : SSHClient.t :=
  SSHClient.mk "export SUP_HOST=web1;" "deploy" (ESC +:+ "[33m") "web1"
               (Some (mkPipe Stdin false)) (Some (mkPipe Stdout false))
               (Some (mkPipe Stderr false)) true.

Definition exit_with (status : Z) : ref -> Task.t -> option error :=
  fun _ _ => Some (ssh_ExitError status).

(** A world like the sample world in which the command of client 1 ends
    before that of client 0, the first with status 7 and the second with
    status 3. *)
Definition racing_world : World :=
  {| user_Current := inl "ci";
     ssh_Connect := fun user host => inl (user, host);
     ssh_ConnectWith := fun user host => inl (user, host);
     finished := fun i => i;
     createTasks := sample_createTasks;
     exec_start := fun _ _ => os_ok;
     ssh_start := fun _ _ => None;
     proc_stdout := fun _ _ => (["hello"], None);
     proc_stderr := fun _ _ => ([], None);
     stdin_copy := fun _ => None;
     proc_exit := fun r _ => Some (ssh_ExitError (if r =? 1 then 7 else 3));
     returned := fun r _ => 1 - r |}.

(** ** The claim on the exit status, as it is worded *)

(** The numeric code of an exit error: of a remote command
    ([*ssh.ExitError]) and of a local command ([*exec.ExitError]). *)
Definition exitCode (err : error) : option Z :=
  match err with
  | ssh_ExitError status => Some status
  | exec_ExitError status => Some status
  | _ => None
  end.

(** "Terminates the process with the client's exit status, using the
    ExitError's numeric code when available and 1 otherwise; an exit status
    of 15 is suppressed as a non-error and does not terminate the run":
    the status the process exits with, or [None] when the run goes on. *)
Definition exitStatus_stated (err : error) : option Z :=
  match exitCode err with
  | Some status => if (status =? 15)%Z then None else Some status
  | None => Some 1%Z
  end.

(** The argument that a waiter passes to [os.Exit] (lines 251-260). *)
Definition exitStatus (err : error) : Z :=
  match as_ssh_ExitError err with
  | Some status => if (status =? 15)%Z then 1%Z else status
  | None => 1%Z
  end.

(** The printable length of a prefix as it is emitted for client [c]: its
    length less the bytes of [c]'s colour escapes. *)
Definition printableLen `{colors} (c : Client) (emitted : string) : nat :=
  let '(prefix, prefixLen) := Client_Prefix c in
  String.length emitted - (String.length prefix - prefixLen).

(** The local client of the user ci as a connector delivers it, and the
    remote client of web1 before its first task. *)
Definition local_ci : LocalhostClient.t :=
  LocalhostClient.mk None "ci" None None None false
                     ("export SUP_HOST=" +:+ dquote +:+ "localhost" +:+ dquote +:+ ";").

Definition remote_web1 : SSHClient.t :=
  SSHClient.mk ("export SUP_HOST=" +:+ dquote +:+ "web1" +:+ dquote +:+ ";")
               "deploy" (ESC +:+ "[33m") "web1" None None None false.

(** ** A sample process: configuration, command line and environment *)

(** The network prod with three hosts, the commands build and deploy, and
    the target deploy, which lists the command build. *)
Definition sample_conf : Supfile.t :=
  Supfile.mk
    {[ "prod" := Network.mk [EnvVar.mk "TIER" "live"] ["web1"; "web2"; "db1"] "" "deploy" "" ]}
    {[ "build" := sample_command "" "make" false false;
       "deploy" := sample_command "" "make install" false false ]}
    {[ "deploy" := ["build"] ]}
    [EnvVar.mk "NAME" "example"].

(** An expression without operators matches the strings it occurs in. *)
Definition occurs (expr s : string) : bool :=
  match String.index 0 expr s with
  | Some _ => true
  | None => false
  end.

Definition sample_flags (only except : string) : Flags.t :=
  Flags.mk false false "" only except "" [] false false.

(** The process [sup --only only --except except args...], run by the user
    ci on 30 October 2026 at 12:00:05 UTC with SUP_TIME set to [pinned]. *)
Definition sample_process (only except : string) (args : list string) (pinned : string)
  : Process :=
  {| flag := sample_flags only except;
     Args := args;
     Getenv := fun key => if String.eqb key "USER" then "ci"
                          else if String.eqb key "SUP_TIME" then pinned else "";
     Now_UTC := Time.mk 2026 10 30 12 0 5;
     ReadFile := fun _ => inl "";
     HomeDir := inl "/home/ci";
     filepath_Join := fun dir name => dir +:+ "/" +:+ name;
     NewSupfile := fun _ => inl sample_conf;
     Network_SetEnvs := fun net _ => net;
     ParseInventory := fun _ => inl [];
     EnvList_SetEnvs := fun vars _ => inl vars;
     Regexp := string;
     CompilePOSIX := fun expr => inl expr;
     MatchString := occurs;
     ParseSSHConfig := fun _ => inl [];
     world := sample_world exit_ok |}.

(** ** The dispatch of the arguments, as a function of each name *)

(** The commands of a target, or the error for the first name in it that is
    no command. *)
Fixpoint targetCommands (conf : Supfile.t) (target : list string)
  : list Command.t + error :=
  match target with
  | [] => inl []
  | cmdName :: rest =>
    match Supfile.Commands conf !! cmdName with
    | None => inr (ErrCmd_for cmdName)
    | Some cmd =>
      match targetCommands conf rest with
      | inl commands => inl (Command.set_Name cmd cmdName :: commands)
      | inr err => inr err
      end
    end
  end.

(** The commands of the arguments, in argument order, when [resolve] gives
    the commands of one argument; the first error ends the dispatch. *)
Fixpoint dispatchWith (resolve : string -> list Command.t + error) (names : list string)
  : list Command.t + error :=
  match names with
  | [] => inl []
  | name :: rest =>
    match resolve name with
    | inr err => inr err
    | inl commands =>
      match dispatchWith resolve rest with
      | inl commands' => inl (commands ++ commands')
      | inr err => inr err
      end
    end
  end.

(** C4 as it is worded: "the name is resolved first as a command name and
    otherwise as a target name; a name that is neither fails with an
    unknown-command error". *)
Definition resolve_stated (conf : Supfile.t) (name : string) : list Command.t + error :=
  match Supfile.Commands conf !! name with
  | Some cmd => inl [Command.set_Name cmd name]
  | None =>
    match Supfile.Targets conf !! name with
    | Some target => targetCommands conf target
    | None => inr (ErrCmd_for name)
    end
  end.

(** C4 as amended: the commands of the target of that name, if there is
    one, followed by the command of that name, if there is one. *)
Definition resolve (conf : Supfile.t) (name : string) : list Command.t + error :=
  match Supfile.Targets conf !! name, Supfile.Commands conf !! name with
  | None, None => inr (ErrCmd_for name)
  | None, Some cmd => inl [Command.set_Name cmd name]
  | Some target, None => targetCommands conf target
  | Some target, Some cmd =>
    match targetCommands conf target with
    | inl commands => inl (commands ++ [Command.set_Name cmd name])
    | inr err => inr err
    end
  end.

(** The value of the last pair of [e] that carries [key]. *)
Fixpoint EnvList_GetLast (e : EnvList) (key : string) : option string :=
  match e with
  | [] => None
  | v :: rest =>
    match EnvList_GetLast rest key with
    | Some value => Some value
    | None => if String.eqb (EnvVar.Key v) key then Some (EnvVar.Value v) else None
    end
  end.

(** ** Further definitions for the properties of the code *)

(** The [running] flag of a client. *)
Definition Client_running (c : Client) : bool :=
  match c with
  | Local l => LocalhostClient.running l
  | Remote r => SSHClient.running r
  end.

(** The keys of an environment, in order. *)
Definition EnvList_keys (e : EnvList) : list string := map EnvVar.Key e.

(** The configuration of the samples with one more target, noop, which
    lists no command. *)
Definition sample_conf_noop : Supfile.t :=
  Supfile.mk (Supfile.Networks sample_conf) (Supfile.Commands sample_conf)
             (<["noop" := []]> (Supfile.Targets sample_conf)) (Supfile.Env sample_conf).

(** An entry of an ssh_config file for the alias web1. *)
Definition sample_sshhost : SSHHost.t :=
  SSHHost.mk ["web1"] "10.0.0.1" 2222 "admin" "".

(** A dispatched command is the command that the configuration holds under
    the name the command carries. *)
Definition dispatched_from (conf : Supfile.t) (c : Command.t) : Prop :=
  exists cmd, Supfile.Commands conf !! Command.Name c = Some cmd
              /\ c = Command.set_Name cmd (Command.Name c).

(** The clients on [clientCh] when the connectors of the hosts of [net]
    have finished, in the order of their delivery. *)
Definition connectedClients `{colors} (w : World) (net : Network.t) (env : string)
  : list Client :=
  sents (delivered w (imap (connector w net env (negb (String.eqb (Network.Bastion net) "")))
                           (Network.Hosts net))).

(** ** The options [-e] and the entry SUP_TIME *)





(** What [main] does with the result of [Run] (main.go, lines 307-311). *)
Definition afterRun (result : list event * outcome) : list event * outcome :=
  match result with
  | (evs, Returned (Some err)) => (evs ++ [Fprintln_Stderr err], Exited 1)
  | (evs, o) => (evs, o)
  end.

(** The application that [main] creates (main.go, lines 296-304). *)
Definition appOf (p : Process) (conf : Supfile.t) : Stackup.t :=
  Stackup.Prefix (Stackup.Debug (Stackup.New conf) (Flags.Debug (flag p)))
                 (negb (Flags.DisablePrefix (flag p))).






(** * Properties *)

(** ** Strings *)

Lemma String_length_app (s1 s2 : string) :
  String.length (s1 +:+ s2) = String.length s1 + String.length s2.
Proof.
  induction s1 as [|a s1 IH]; [reflexivity|].
  change (S (String.length (s1 +:+ s2)) = S (String.length s1 + String.length s2)).
  now rewrite IH.
Qed.

Lemma strings_Repeat_length (n : nat) : String.length (strings_Repeat " " n) = n.
Proof.
  induction n as [|n IH]; [reflexivity|].
  change (S (String.length (strings_Repeat " " n)) = S n). now rewrite IH.
Qed.

(** ** The local client *)

(** C7: for a local client with user [u], [Prefix()] returns the
    colour-reset escape followed by "u@localhost | ", together with the
    length of "u@localhost | " alone: the length of [u] plus 13, which is the
    length of the prefix less that of the escape. *)
Theorem LocalhostClient_Prefix_spec `{colors} (c : LocalhostClient.t) :
  let u := LocalhostClient.user c in
  LocalhostClient.Prefix c
    = (ResetColor +:+ (u +:+ "@localhost | "), String.length (u +:+ "@localhost | "))
  /\ snd (LocalhostClient.Prefix c) = String.length u + 13
  /\ String.length (fst (LocalhostClient.Prefix c))
     = String.length ResetColor + snd (LocalhostClient.Prefix c).
Proof.
  intros u. unfold LocalhostClient.Prefix. fold u.
  change ("@localhost" +:+ " | ") with "@localhost | ".
  split; [reflexivity|]. split; cbn [fst snd].
  - now rewrite String_length_app.
  - now rewrite String_length_app.
Qed.

Lemma LocalhostClient_Run_running (os : exec_os) (c : LocalhostClient.t) (task : Task.t) :
  LocalhostClient.running c = true ->
  LocalhostClient.Run os c task = (c, Some (errors_New "Command already running")).
Proof. intros Hr. unfold LocalhostClient.Run. now rewrite Hr. Qed.

Lemma LocalhostClient_Run_started (os : exec_os) (c c' : LocalhostClient.t) (task : Task.t) :
  LocalhostClient.running c = false ->
  LocalhostClient.Run os c task = (c', None) ->
  c' = LocalhostClient.mk
         (Some (Cmd.mk "bash" ["-c"; LocalhostClient.env c +:+ Task.Run task] true))
         (LocalhostClient.user c)
         (Some (mkPipe Stdin false)) (Some (mkPipe Stdout false)) (Some (mkPipe Stderr false))
         true (LocalhostClient.env c).
Proof.
  intros Hr. unfold LocalhostClient.Run. rewrite Hr.
  destruct (StdoutPipe_err os); [discriminate|].
  destruct (StderrPipe_err os); [discriminate|].
  destruct (StdinPipe_err os); [discriminate|].
  destruct (Start_err os); [discriminate|].
  intros [= <-]. reflexivity.
Qed.

Lemma LocalhostClient_Run_succeeds (os : exec_os) (c : LocalhostClient.t) (task : Task.t) :
  LocalhostClient.running c = false ->
  (snd (LocalhostClient.Run os c task) = None
   <-> StdoutPipe_err os = None /\ StderrPipe_err os = None
       /\ StdinPipe_err os = None /\ Start_err os = None).
Proof.
  intros Hr. unfold LocalhostClient.Run. rewrite Hr.
  destruct (StdoutPipe_err os), (StderrPipe_err os), (StdinPipe_err os), (Start_err os);
    cbn [snd]; split; intros; repeat split; try reflexivity; try discriminate;
    try (destruct_and?; discriminate).
Qed.

(** C6: when the client is running, [Run] returns the error "Command
    already running" and leaves the client as it was, running.  When it is
    not running, [Run] succeeds exactly when the three pipes and the start of
    the process succeed, and then the client holds a started command bash
    with the arguments -c and [env] followed by the task's snippet, its
    three endpoints are open pipes, and it is running. *)
Theorem LocalhostClient_Run_spec (os : exec_os) (c : LocalhostClient.t) (task : Task.t) :
  (LocalhostClient.running c = true ->
   LocalhostClient.Run os c task = (c, Some (errors_New "Command already running")))
  /\ (LocalhostClient.running c = false ->
      (snd (LocalhostClient.Run os c task) = None
       <-> StdoutPipe_err os = None /\ StderrPipe_err os = None
           /\ StdinPipe_err os = None /\ Start_err os = None)
      /\ forall c', LocalhostClient.Run os c task = (c', None) ->
           LocalhostClient.cmd c'
             = Some (Cmd.mk "bash" ["-c"; LocalhostClient.env c +:+ Task.Run task] true)
           /\ LocalhostClient.Stdout c' = Some (mkPipe Stdout false)
           /\ LocalhostClient.Stderr c' = Some (mkPipe Stderr false)
           /\ LocalhostClient.Stdin c' = Some (mkPipe Stdin false)
           /\ LocalhostClient.running c' = true).
Proof.
  split; [apply LocalhostClient_Run_running|].
  intros Hr. split; [now apply LocalhostClient_Run_succeeds|].
  intros c' Hrun. rewrite (LocalhostClient_Run_started os c c' task Hr Hrun).
  repeat split.
Qed.

(** The theorem at a client that has connected and not run yet, and at the
    client that this first [Run] leaves. *)
Lemma LocalhostClient_Run_spec_witness :
  let c' := fst (LocalhostClient.Run os_ok sample_local sample_task) in
  (LocalhostClient.cmd c' = Some (Cmd.mk "bash" ["-c"; "export A=1;echo hello"] true)
   /\ LocalhostClient.running c' = true)
  /\ LocalhostClient.Run os_ok c' sample_task = (c', Some (errors_New "Command already running")).
Proof.
  intros c'. split.
  - destruct (LocalhostClient_Run_spec os_ok sample_local sample_task) as [_ H2].
    destruct (H2 eq_refl) as [_ H3].
    destruct (H3 c' eq_refl) as (Hcmd & _ & _ & _ & Hrun).
    split; [exact Hcmd | exact Hrun].
  - destruct (LocalhostClient_Run_spec os_ok c' sample_task) as [H1 _].
    exact (H1 eq_refl).
Defined.

(** ** The run loop *)

(** C10: with an empty command list [Run] returns the error "no commands
    to be run"; it has dialled no host and no bastion, started nothing and
    printed nothing. *)
Theorem Run_no_commands `{colors} (w : World) (sup : Stackup.t) (net : Network.t)
        (envVars : EnvList) :
  Run w sup net envVars [] = ([], Returned (Some (errors_New "no commands to be run"))).
Proof. reflexivity. Qed.


(** *** The connectors *)



(** *** The waiters *)

Lemma waiters_app `{colors} (w : World) (sup : Stackup.t) (maxLen : nat) (task : Task.t)
      (pre post : list ref) (st st1 : state) :
  waiters w sup maxLen task pre st = (st1, None) ->
  waiters w sup maxLen task (pre ++ post) st = waiters w sup maxLen task post st1.
Proof.
  revert st. induction pre as [|r pre IH]; intros st.
  - cbn. now intros [= ->].
  - cbn [waiters app]. destruct (store st !! r) as [c|]; [|discriminate].
    destruct (Client_Wait w r c task) as [c' [err|]].
    + destruct (waiterFailed _ _ _ _). discriminate.
    + apply IH.
Qed.

Lemma waiterFailed_spec `{colors} (usePrefix : bool) (maxLen : nat) (c : Client) (err : error) :
  waiterFailed usePrefix maxLen c err
  = ([Fprintf_Stderr (paddedPrefix usePrefix maxLen c) err], exitStatus err).
Proof.
  unfold waiterFailed, exitStatus. destruct (as_ssh_ExitError err) as [status|]; [|reflexivity].
  now destruct (status =? 15)%Z.
Qed.

Lemma map_pair_snd {A B : Type} (f : A -> B) (l : list A) :
  (map (fun x => (f x, x)) l).*2 = l.
Proof. induction l as [|x l IH]; [reflexivity|]. cbn. now rewrite IH. Qed.

(** The waiters act in some order on the clients of the task. *)
Lemma waitOrder_Permutation (w : World) (task : Task.t) :
  Permutation (waitOrder w task) (Task.Clients task).
Proof.
  unfold waitOrder. rewrite merge_sort_Permutation. now rewrite map_pair_snd.
Qed.

Lemma waitOrder_In (w : World) (task : Task.t) (r : ref) :
  In r (Task.Clients task) -> In r (waitOrder w task).
Proof.
  intros Hin. apply (Permutation_in r (Permutation_sym (waitOrder_Permutation w task))).
  exact Hin.
Qed.

Lemma waiters_first_failure `{colors} (w : World) (sup : Stackup.t) (maxLen : nat)
      (task : Task.t) (pre post : list ref) (r : ref) (st st1 : state)
      (c c' : Client) (err : error) :
  waiters w sup maxLen task pre st = (st1, None) ->
  store st1 !! r = Some c ->
  Client_Wait w r c task = (c', Some err) ->
  waiters w sup maxLen task (pre ++ r :: post) st
  = (emit [Fprintf_Stderr (paddedPrefix (Stackup.prefix sup) maxLen c') err] (update r c' st1),
     Some (Exited (exitStatus err))).
Proof.
  intros Hpre Hc Hwait. rewrite (waiters_app w sup maxLen task pre _ st st1 Hpre).
  cbn [waiters]. now rewrite Hc, Hwait, waiterFailed_spec.
Qed.

(** C1, amended: let a task be started and its pumps joined, and let [r] be
    the first client, in the order in which the [Wait]s of the task
    return, whose [Wait] returns an error [err], and let [err] not be the
    exit error of a local command.  Then [r] is a client of the task, the
    run prints [err] after [r]'s prefix, padded as the run loop pads it, and
    calls [os.Exit]: with the numeric code of [err] when it has one and the
    code is not 15, and with 1 when the code is 15 or [err] has none.  What
    the waiters that return later find does not matter. *)
Theorem runTask_wait_failure `{colors} (w : World) (sup : Stackup.t) (maxLen : nat)
        (clients : list ref) (task : Task.t) (pre post : list ref) (r : ref)
        (st started piped st1 : state) (writers : list (ref * option pipe))
        (pumps : list (ref * string)) (c c' : Client) (err : error) :
  startClients w sup maxLen task (Task.Clients task) [] [] st
  = (started, inl (writers, pumps)) ->
  stdinPump w clients task writers started = (piped, None) ->
  waitOrder w task = pre ++ r :: post ->
  waiters w sup maxLen task pre (emit (concat (map (pump w task) pumps)) piped)
  = (st1, None) ->
  store st1 !! r = Some c ->
  Client_Wait w r c task = (c', Some err) ->
  (forall status, err <> exec_ExitError status) ->
  In r (Task.Clients task)
  /\ runTask w sup maxLen clients task st
     = (emit [Fprintf_Stderr (paddedPrefix (Stackup.prefix sup) maxLen c') err]
             (update r c' st1),
        Some (Exited (match exitCode err with
                      | Some status => if (status =? 15)%Z then 1%Z else status
                      | None => 1%Z
                      end))).
Proof.
  intros Hstart Hpump Horder Hpre Hc Hwait Hlocal. split.
  - apply (Permutation_in r (waitOrder_Permutation w task)).
    rewrite Horder. apply in_or_app. right. now left.
  - unfold runTask. rewrite Hstart, Hpump, Horder.
    rewrite (waiters_first_failure w sup maxLen task pre post r _ st1 c c' err Hpre Hc Hwait).
    do 3 f_equal. unfold exitStatus.
    destruct err; try reflexivity. now contradiction (Hlocal status).
Qed.

(** The theorem for a task on two remote clients: the command of client 1
    exits first, with status 7, and the command of client 0 with status 3;
    the run exits with 7. *)
Lemma runTask_wait_failure_witness :
  exists st',
    @runTask ansi racing_world sample_sup 14 [0; 1] (Task.mk "exit" [0; 1] None)
             (mkState [Remote remote_web1; Remote remote_web1] [])
    = (st', Some (Exited 7)).
Proof.
  eexists.
  refine (proj2 (@runTask_wait_failure ansi racing_world sample_sup 14 [0; 1]
                   (Task.mk "exit" [0; 1] None) [] [0] 1
                   (mkState [Remote remote_web1; Remote remote_web1] [])
                   _ _ _ _ _ _ _ (ssh_ExitError 7)
                   eq_refl eq_refl eq_refl eq_refl eq_refl eq_refl _)).
  discriminate.
Defined.

(** C1 as it is worded fails for the status 15: the claim lets the run go
    on, the process exits with status 1. *)
Lemma exit_status_15_terminates :
  let result :=
    snd (@runTask ansi (sample_world (exit_with 15)) sample_sup 14 [0]
                  (Task.mk "sleep 5" [0] None) (mkState [Remote remote_web1] [])) in
  result = Some (Exited 1)
  /\ exitStatus_stated (ssh_ExitError 15) = None
  /\ result <> (Exited <$> exitStatus_stated (ssh_ExitError 15)).
Proof. cbv zeta. split; [reflexivity|]. split; [reflexivity|]. discriminate. Qed.

(** *** The prefixes *)

Lemma Client_Prefix_le `{colors} (c : Client) :
  snd (Client_Prefix c) <= String.length (fst (Client_Prefix c)).
Proof.
  destruct c as [l|r]; cbn [Client_Prefix]; unfold LocalhostClient.Prefix, SSHClient.Prefix;
    cbv zeta; cbn [fst snd]; rewrite !String_length_app; lia.
Qed.

(** The maximum that [drain] leaves is the largest printable length among
    the clients of the channel, and the client list is the channel. *)
Lemma drain_spec `{colors} (ch : list Client) (maxLen : nat) (clients : list Client) :
  drain ch maxLen clients
  = (foldl Nat.max maxLen (map (fun c => snd (Client_Prefix c)) ch), clients ++ ch).
Proof.
  revert maxLen clients. induction ch as [|c ch IH]; intros maxLen clients.
  - cbn. now rewrite app_nil_r.
  - cbn [drain map foldl]. destruct (Client_Prefix c) as [prefix prefixLen] eqn:Hp.
    rewrite IH. cbn [snd]. rewrite <- app_assoc. cbn [app]. f_equal. f_equal.
    destruct (Nat.ltb_spec maxLen prefixLen); lia.
Qed.

Lemma foldl_max_le (l : list nat) (m : nat) : m <= foldl Nat.max m l.
Proof.
  revert m. induction l as [|x l IH]; intros m; cbn; [lia|].
  specialize (IH (Nat.max m x)). lia.
Qed.

Lemma foldl_max_elem (l : list nat) (m x : nat) : In x l -> x <= foldl Nat.max m l.
Proof.
  revert m. induction l as [|y l IH]; intros m; cbn; [tauto|].
  intros [->|Hin]; [|now apply IH].
  pose proof (foldl_max_le l (Nat.max m x)). lia.
Qed.

(** No connected client has a printable prefix wider than [maxLen]. *)
Lemma drain_maxLen_bound `{colors} (ch : list Client) (c : Client) :
  In c ch -> snd (Client_Prefix c) <= fst (drain ch 0 []).
Proof.
  intros Hin. rewrite drain_spec. cbn [fst].
  apply foldl_max_elem. now apply (in_map (fun c => snd (Client_Prefix c))).
Qed.

(** When the prefix with its escapes is shorter than [maxLen], the padded
    prefix has the printable length [maxLen]. *)
Lemma paddedPrefix_aligned `{colors} (maxLen : nat) (c : Client) :
  String.length (fst (Client_Prefix c)) < maxLen ->
  printableLen c (paddedPrefix true maxLen c) = maxLen.
Proof.
  intros Hlt. pose proof (Client_Prefix_le c) as Hle.
  unfold printableLen, paddedPrefix.
  destruct (Client_Prefix c) as [prefix prefixLen]. cbn [fst snd] in *.
  destruct (Nat.ltb_spec (String.length prefix) maxLen); [|lia].
  rewrite String_length_app, strings_Repeat_length. lia.
Qed.

(** Otherwise the prefix is emitted as it is, whatever its printable
    length. *)
Lemma paddedPrefix_unpadded `{colors} (maxLen : nat) (c : Client) :
  maxLen <= String.length (fst (Client_Prefix c)) ->
  paddedPrefix true maxLen c = fst (Client_Prefix c)
  /\ printableLen c (paddedPrefix true maxLen c) = snd (Client_Prefix c).
Proof.
  intros Hge. pose proof (Client_Prefix_le c) as Hle.
  unfold printableLen, paddedPrefix.
  destruct (Client_Prefix c) as [prefix prefixLen]. cbn [fst snd] in *.
  destruct (Nat.ltb_spec (String.length prefix) maxLen); [lia|].
  split; [reflexivity | lia].
Qed.

(** C2 at the hosts localhost and web1: the printable lengths are 15 and
    14, so [maxLen] is 15; the prefix of web1 is 19 bytes long with its
    escape, not less than 15, and it is emitted without the space that
    would align it. *)
Theorem Run_prefix_not_aligned :
  fst (@drain ansi [Local local_ci; Remote remote_web1] 0 []) = 15
  /\ @printableLen ansi (Remote remote_web1)
                   (@paddedPrefix ansi true 15 (Remote remote_web1)) = 14
  /\ @Run ansi (sample_world exit_ok) sample_sup (sample_network ["localhost"; "web1"]) []
          [sample_command "hi" "echo hello" false false]
     = ([Dial false "web1"; Started 0 "echo hello"; Started 1 "echo hello";
         Stdout_line (ESC +:+ "[0mci@localhost | hello");
         Stdout_line (ESC +:+ "[33mdeploy@web1 | hello");
         Closed 1],
        Returned None).
Proof. repeat split; vm_compute; reflexivity. Qed.

(** *** The stdin pump *)

(** The writers that the start loop records are the stdin writers of the
    clients of the task, in order. *)
Lemma startClients_writers `{colors} (w : World) (sup : Stackup.t) (maxLen : nat)
      (task : Task.t) (cs : list ref) (writers writers' : list (ref * option pipe))
      (pumps pumps' : list (ref * string)) (st st' : state) :
  startClients w sup maxLen task cs writers pumps st = (st', inl (writers', pumps')) ->
  map fst writers' = map fst writers ++ cs.
Proof.
  revert writers pumps st. induction cs as [|r cs IH]; intros writers pumps st.
  - cbn. intros [= _ <- _]. now rewrite app_nil_r.
  - cbn [startClients]. destruct (store st !! r) as [c|]; [|discriminate].
    destruct (Client_Run w r c task) as [c' [err|]]; [discriminate|].
    intros Hrec. apply IH in Hrec. rewrite Hrec, map_app. cbn.
    now rewrite <- app_assoc.
Qed.

(** The closing loop calls [WriteClose] on every client of the list it is
    given, in order, unless one of the calls panics. *)
Lemma closeStdins_out (cs : list ref) (st st' : state) :
  closeStdins cs st = (st', None) -> out st' = out st ++ map WriteClosed cs.
Proof.
  revert st. induction cs as [|r cs IH]; intros st.
  - cbn. intros [= <-]. now rewrite app_nil_r.
  - cbn [closeStdins]. destruct (store st !! r) as [c|]; [|discriminate].
    destruct (Client_WriteClose c) as [c'|]; [|discriminate].
    intros Hrec. apply IH in Hrec. rewrite Hrec. cbn. now rewrite <- app_assoc.
Qed.

(** The pump of a task with input copies the input to the recorded writers
    and then closes the stdin of the clients of the run. *)
Lemma stdinPump_out (w : World) (clients : list ref) (task : Task.t)
      (writers : list (ref * option pipe)) (data : string) (st st' : state) :
  Task.Input task = Some data ->
  stdin_copy w task = None ->
  stdinPump w clients task writers st = (st', None) ->
  out st' = out st ++ Copy_stdin writers data :: map WriteClosed clients.
Proof.
  intros Hin Hcopy. unfold stdinPump. rewrite Hin, Hcopy.
  intros Hclose. apply closeStdins_out in Hclose. rewrite Hclose. cbn.
  now rewrite <- app_assoc.
Qed.

(** C3 at two local clients and a command with [once] and [stdin]: its task
    has the first client only; the pump copies to that client's writer
    alone and then calls [WriteClose] on both clients of the run.  After an
    earlier command has run on both, the stdin of client 1, which is not in
    the task, is closed; in a run of that command alone client 1 has no
    stdin yet and the call panics. *)
Theorem stdinPump_closes_every_client :
  @Run ansi (sample_world exit_ok) sample_sup (sample_network ["localhost"; "localhost"]) []
       [sample_command "up" "true" false false; sample_command "feed" "cat" true true]
  = ([Started 0 "true"; Started 1 "true";
      Stdout_line (ESC +:+ "[0mci@localhost | hello");
      Stdout_line (ESC +:+ "[0mci@localhost | hello");
      Started 0 "cat";
      Copy_stdin [(0, Some (mkPipe Stdin false))] "abc";
      WriteClosed 0; WriteClosed 1;
      Stdout_line (ESC +:+ "[0mci@localhost | hello")],
     Returned None)
  /\ @Run ansi (sample_world exit_ok) sample_sup (sample_network ["localhost"; "localhost"]) []
          [sample_command "feed" "cat" true true]
     = ([Started 0 "cat"; Copy_stdin [(0, Some (mkPipe Stdin false))] "abc"; WriteClosed 0],
        Panicked).
Proof. split; vm_compute; reflexivity. Qed.

(** ** The command line *)

(** *** The arguments *)

Lemma targetLoop_spec (conf : Supfile.t) (target : list string) (commands : list Command.t) :
  targetLoop conf target commands
  = match targetCommands conf target with
    | inl commands' => inl (commands ++ commands')
    | inr err => inr err
    end.
Proof.
  revert commands. induction target as [|cmdName rest IH]; intros commands.
  - cbn. now rewrite app_nil_r.
  - cbn [targetLoop targetCommands].
    destruct (Supfile.Commands conf !! cmdName) as [cmd|]; [|reflexivity].
    rewrite IH. destruct (targetCommands conf rest); [|reflexivity].
    now rewrite <- app_assoc.
Qed.

Lemma argsLoop_spec (conf : Supfile.t) (names : list string) (commands : list Command.t) :
  argsLoop conf names commands
  = match dispatchWith (resolve conf) names with
    | inl commands' => inl (commands ++ commands')
    | inr err => inr err
    end.
Proof.
  revert commands. induction names as [|name rest IH]; intros commands.
  - cbn. now rewrite app_nil_r.
  - cbn [argsLoop dispatchWith].
    remember (dispatchWith (resolve conf) rest) as rest' eqn:Hrest.
    unfold resolve.
    destruct (Supfile.Targets conf !! name) as [target|];
      destruct (Supfile.Commands conf !! name) as [cmd|]; cbn.
    + rewrite targetLoop_spec. destruct (targetCommands conf target); [|reflexivity].
      rewrite IH. destruct rest'; [|reflexivity].
      now rewrite <- !app_assoc.
    + rewrite targetLoop_spec. destruct (targetCommands conf target); [|reflexivity].
      rewrite IH. destruct rest'; [|reflexivity].
      now rewrite <- !app_assoc.
    + rewrite IH. destruct rest'; [|reflexivity].
      now rewrite <- !app_assoc.
    + reflexivity.
Qed.

(** A name that is not both a command and a target is resolved as the
    claim words it. *)
Lemma resolve_stated_agrees (conf : Supfile.t) (name : string) :
  Supfile.Targets conf !! name = None \/ Supfile.Commands conf !! name = None ->
  resolve conf name = resolve_stated conf name.
Proof.
  unfold resolve, resolve_stated. intros [-> | ->].
  - now destruct (Supfile.Commands conf !! name).
  - now destruct (Supfile.Targets conf !! name).
Qed.

(** C4, amended: the loop over the arguments after NETWORK looks every
    name up as a target and as a command.  A name that is neither fails
    with the unknown-command error, as does a target that lists a name that
    is no command; every other name contributes, in argument order, the
    commands of the target of that name followed by the command of that
    name, each once. *)
Theorem argsLoop_dispatch (conf : Supfile.t) (names : list string) :
  argsLoop conf names [] = dispatchWith (resolve conf) names.
Proof.
  rewrite argsLoop_spec. now destruct (dispatchWith (resolve conf) names).
Qed.

(** C4 as it is worded fails for a name that is both a command and a
    target: for deploy the code dispatches the command build of the target
    and then the command deploy, the claim the command deploy alone. *)
Lemma argsLoop_target_and_command :
  argsLoop sample_conf ["deploy"] []
  = inl [sample_command "build" "make" false false;
         sample_command "deploy" "make install" false false]
  /\ dispatchWith (resolve_stated sample_conf) ["deploy"]
     = inl [sample_command "deploy" "make install" false false]
  /\ argsLoop sample_conf ["deploy"] [] <> dispatchWith (resolve_stated sample_conf) ["deploy"].
Proof.
  assert (H1 : argsLoop sample_conf ["deploy"] []
               = inl [sample_command "build" "make" false false;
                      sample_command "deploy" "make install" false false])
    by (vm_compute; reflexivity).
  assert (H2 : dispatchWith (resolve_stated sample_conf) ["deploy"]
               = inl [sample_command "deploy" "make install" false false])
    by (vm_compute; reflexivity).
  split; [exact H1|]. split; [exact H2|]. rewrite H1, H2. discriminate.
Qed.

(** *** The environment of the network *)

Lemma EnvList_Get_Set_eq (e : EnvList) (key value : string) :
  EnvList_Get (EnvList_Set e key value) key = Some value.
Proof.
  induction e as [|v e IH]; cbn.
  - now rewrite String.eqb_refl.
  - destruct (String.eqb (EnvVar.Key v) key) eqn:Hk; cbn.
    + now rewrite String.eqb_refl.
    + now rewrite Hk.
Qed.

Lemma EnvList_Get_Set_ne (e : EnvList) (key key' value : string) :
  key <> key' ->
  EnvList_Get (EnvList_Set e key value) key' = EnvList_Get e key'.
Proof.
  intros Hne. induction e as [|v e IH]; cbn.
  - destruct (String.eqb_spec key key'); [contradiction | reflexivity].
  - destruct (String.eqb_spec (EnvVar.Key v) key) as [Hk|Hk]; cbn.
    + destruct (String.eqb_spec key key'); [contradiction|].
      destruct (String.eqb_spec (EnvVar.Key v) key'); [congruence | reflexivity].
    + now rewrite IH.
Qed.


(** When [parseArgs] succeeds it has printed nothing, and the environment
    of the network is that of [defaultEnv]. *)
Lemma parseArgs_ok (p : Process) (conf : Supfile.t) (evs : list event) (net : Network.t)
      (commands : list Command.t) :
  parseArgs p conf = (evs, inl (net, commands)) ->
  evs = []
  /\ exists env network names,
       Args p = network :: names
       /\ Network.Env net = defaultEnv p env network
       /\ argsLoop conf names [] = inl commands.
Proof.
  unfold parseArgs. destruct (Args p) as [|network names]; [discriminate|].
  destruct (Supfile.Networks conf !! network) as [net0|]; [|discriminate].
  destruct (ParseInventory p _) as [hosts|err]; [|discriminate].
  destruct (length _ =? 0); [discriminate|].
  destruct (length (network :: names) <? 2); [discriminate|].
  destruct (argsLoop conf names []) as [commands'|err] eqn:Hloop; [|discriminate].
  intros [= <- <- <-]. split; [reflexivity|].
  eexists _, network, names. repeat split. exact Hloop.
Qed.

(** The timestamp has the shape of RFC 3339 for UTC: twenty bytes, with the
    separators of the date, the letter T, the separators of the time and the
    zone Z in their places. *)
Lemma Format_RFC3339_shape (t : Time.t) :
  String.length (Format_RFC3339 t) = 20
  /\ String.get 4 (Format_RFC3339 t) = Some "-"%char
  /\ String.get 7 (Format_RFC3339 t) = Some "-"%char
  /\ String.get 10 (Format_RFC3339 t) = Some "T"%char
  /\ String.get 13 (Format_RFC3339 t) = Some ":"%char
  /\ String.get 16 (Format_RFC3339 t) = Some ":"%char
  /\ String.get 19 (Format_RFC3339 t) = Some "Z"%char.
Proof. repeat split. Qed.


(** *** The environment of the run *)

Lemma EnvList_Get_foldl_Set (l acc : EnvList) (key : string) :
  EnvList_Get (foldl (fun vars val => EnvList_Set vars (EnvVar.Key val) (EnvVar.Value val))
                     acc l) key
  = match EnvList_GetLast l key with
    | Some value => Some value
    | None => EnvList_Get acc key
    end.
Proof.
  revert acc. induction l as [|v l IH]; intros acc; [reflexivity|].
  cbn [foldl EnvList_GetLast]. rewrite IH.
  destruct (EnvList_GetLast l key); [reflexivity|].
  destruct (String.eqb_spec (EnvVar.Key v) key) as [<-|Hne].
  - apply EnvList_Get_Set_eq.
  - now apply EnvList_Get_Set_ne.
Qed.

Lemma EnvList_GetLast_app (l1 l2 : EnvList) (key : string) :
  EnvList_GetLast (l1 ++ l2) key
  = match EnvList_GetLast l2 key with
    | Some value => Some value
    | None => EnvList_GetLast l1 key
    end.
Proof.
  induction l1 as [|v l1 IH]; cbn [app EnvList_GetLast].
  - now destruct (EnvList_GetLast l2 key).
  - rewrite IH. now destruct (EnvList_GetLast l2 key).
Qed.

Lemma EnvList_GetLast_None (l : EnvList) (key : string) :
  ~ In key (map EnvVar.Key l) -> EnvList_GetLast l key = None.
Proof.
  induction l as [|v l IH]; [reflexivity|]. cbn. intros Hnot.
  rewrite IH by tauto.
  destruct (String.eqb_spec (EnvVar.Key v) key); [tauto | reflexivity].
Qed.

Lemma EnvList_GetLast_NoDup (l : EnvList) (key value : string) :
  List.NoDup (map EnvVar.Key l) ->
  EnvList_Get l key = Some value -> EnvList_GetLast l key = Some value.
Proof.
  induction l as [|v l IH]; [discriminate|]. cbn.
  intros Hnd. apply List.NoDup_cons_iff in Hnd as [Hnotin Hnd].
  destruct (String.eqb_spec (EnvVar.Key v) key) as [<-|Hne].
  - intros [= <-]. now rewrite EnvList_GetLast_None.
  - intros Hget. now rewrite (IH Hnd Hget).
Qed.


(** *** The host filters *)

Lemma onlyLoop_filter (p : Process) (expr : Regexp p) (range hosts : list string) :
  onlyLoop p expr range hosts = hosts ++ List.filter (MatchString p expr) range.
Proof.
  revert hosts. induction range as [|host rest IH]; intros hosts; cbn.
  - now rewrite app_nil_r.
  - destruct (MatchString p expr host); rewrite IH; [|reflexivity].
    now rewrite <- app_assoc.
Qed.

Lemma exceptLoop_filter (p : Process) (expr : Regexp p) (range hosts : list string) :
  exceptLoop p expr range hosts
  = hosts ++ List.filter (fun host => negb (MatchString p expr host)) range.
Proof.
  revert hosts. induction range as [|host rest IH]; intros hosts; cbn.
  - now rewrite app_nil_r.
  - destruct (MatchString p expr host); cbn [negb]; rewrite IH; [reflexivity|].
    now rewrite <- app_assoc.
Qed.

Lemma onlyHosts_spec (p : Process) (net : Network.t) (expr : Regexp p) :
  Flags.OnlyHosts (flag p) <> "" ->
  CompilePOSIX p (Flags.OnlyHosts (flag p)) = inl expr ->
  onlyHosts p net
  = match List.filter (MatchString p expr) (Network.Hosts net) with
    | [] => Stop [Fprintln_Stderr
                    (errors_New ("no hosts match --only '" +:+ Flags.OnlyHosts (flag p)
                                   +:+ "' regexp"))] (Exited 1)
    | hosts => Go (Network.set_Hosts net hosts)
    end.
Proof.
  intros Hflag Hexpr. unfold onlyHosts.
  destruct (String.eqb_spec (Flags.OnlyHosts (flag p)) ""); [contradiction|].
  cbn [negb]. rewrite Hexpr, onlyLoop_filter. cbn [app].
  now destruct (List.filter _ _).
Qed.

Lemma exceptHosts_spec (p : Process) (net : Network.t) (expr : Regexp p) :
  Flags.ExceptHosts (flag p) <> "" ->
  CompilePOSIX p (Flags.ExceptHosts (flag p)) = inl expr ->
  exceptHosts p net
  = match List.filter (fun host => negb (MatchString p expr host)) (Network.Hosts net) with
    | [] => Stop [Fprintln_Stderr
                    (errors_New ("no hosts left after --except '" +:+ Flags.OnlyHosts (flag p)
                                   +:+ "' regexp"))] (Exited 1)
    | hosts => Go (Network.set_Hosts net hosts)
    end.
Proof.
  intros Hflag Hexpr. unfold exceptHosts.
  destruct (String.eqb_spec (Flags.ExceptHosts (flag p)) ""); [contradiction|].
  cbn [negb]. rewrite Hexpr, exceptLoop_filter. cbn [app].
  now destruct (List.filter _ _).
Qed.

(** * Further properties of the code *)

(** ** The life cycle of a local client *)

(** X1: after a [Run] that succeeded, a second [Run] fails with "Command
    already running" and changes nothing, [WriteClose] does not panic, and
    [Wait] returns the exit of the process and clears [running]; after that
    [Wait], a second [Wait] fails with "trying to wait on stopped command",
    [WriteClose] still does not panic, and [Run] succeeds again exactly
    when the pipes and the start of the new process succeed. *)
Theorem LocalhostClient_lifecycle (os os' : exec_os) (exit exit' : option error)
        (c c1 : LocalhostClient.t) (task task' : Task.t) :
  LocalhostClient.Run os c task = (c1, None) ->
  let c2 := fst (LocalhostClient.Wait exit c1) in
  LocalhostClient.Run os' c1 task' = (c1, Some (errors_New "Command already running"))
  /\ LocalhostClient.WriteClose c1
     = Some (LocalhostClient.set_stdin c1 (Some (mkPipe Stdin true)))
  /\ LocalhostClient.Wait exit c1 = (c2, exit)
  /\ LocalhostClient.running c2 = false
  /\ LocalhostClient.Wait exit' c2
     = (c2, Some (errors_New "trying to wait on stopped command"))
  /\ LocalhostClient.WriteClose c2 <> None
  /\ (snd (LocalhostClient.Run os' c2 task') = None
      <-> StdoutPipe_err os' = None /\ StderrPipe_err os' = None
          /\ StdinPipe_err os' = None /\ Start_err os' = None).
Proof.
  intros Hrun c2.
  assert (Hc : LocalhostClient.running c = false).
  { destruct (LocalhostClient.running c) eqn:Hr; [|reflexivity].
    rewrite (LocalhostClient_Run_running os c task Hr) in Hrun. discriminate. }
  pose proof (LocalhostClient_Run_started os c c1 task Hc Hrun) as Hc1.
  assert (Hr1 : LocalhostClient.running c1 = true) by (rewrite Hc1; reflexivity).
  assert (Hs1 : LocalhostClient.stdin c1 = Some (mkPipe Stdin false))
    by (rewrite Hc1; reflexivity).
  assert (Hw : LocalhostClient.Wait exit c1 = (LocalhostClient.set_running c1 false, exit))
    by (unfold LocalhostClient.Wait; now rewrite Hr1).
  subst c2. rewrite Hw. cbn [fst].
  split; [now apply LocalhostClient_Run_running|].
  split; [unfold LocalhostClient.WriteClose; now rewrite Hs1|].
  split; [reflexivity|]. split; [reflexivity|]. split; [reflexivity|].
  split.
  - unfold LocalhostClient.WriteClose. cbn. rewrite Hs1. discriminate.
  - now apply LocalhostClient_Run_succeeds.
Qed.

(** The theorem at the sample client and task. *)
Lemma LocalhostClient_lifecycle_witness :
  let c1 := fst (LocalhostClient.Run os_ok sample_local sample_task) in
  let c2 := fst (LocalhostClient.Wait (Some (exec_ExitError 2)) c1) in
  LocalhostClient.Wait (Some (exec_ExitError 2)) c1 = (c2, Some (exec_ExitError 2))
  /\ LocalhostClient.running c2 = false
  /\ LocalhostClient.Wait None c2
     = (c2, Some (errors_New "trying to wait on stopped command")).
Proof.
  intros c1 c2.
  destruct (LocalhostClient_lifecycle os_ok os_ok (Some (exec_ExitError 2)) None
              sample_local c1 sample_task sample_task eq_refl)
    as (_ & _ & Hwait & Hstopped & Hagain & _).
  split; [exact Hwait|]. split; [exact Hstopped | exact Hagain].
Defined.

(** X2: [Run], [Wait] and [WriteClose] never change the user and the
    environment of a local client, whether they succeed or fail, so its
    prefix and its printable length are the same throughout a run. *)
Theorem LocalhostClient_Prefix_stable `{colors} (os : exec_os) (exit : option error)
        (c : LocalhostClient.t) (task : Task.t) :
  let same c' :=
    LocalhostClient.Prefix c' = LocalhostClient.Prefix c
    /\ LocalhostClient.user c' = LocalhostClient.user c
    /\ LocalhostClient.env c' = LocalhostClient.env c in
  same (fst (LocalhostClient.Run os c task))
  /\ same (fst (LocalhostClient.Wait exit c))
  /\ match LocalhostClient.WriteClose c with
     | Some c' => same c'
     | None => True
     end.
Proof.
  cbv zeta. unfold LocalhostClient.Prefix, LocalhostClient.Run, LocalhostClient.Wait,
    LocalhostClient.WriteClose.
  split; [|split].
  - destruct (LocalhostClient.running c); [repeat split|].
    destruct (StdoutPipe_err os); [repeat split|].
    destruct (StderrPipe_err os); [repeat split|].
    destruct (StdinPipe_err os); [repeat split|].
    destruct (Start_err os); repeat split.
  - destruct (LocalhostClient.running c); repeat split.
  - destruct (LocalhostClient.stdin c); repeat split.
Qed.

(** ** Paths *)

Lemma String_length_0 (s : string) : String.length s = 0 <-> s = "".
Proof. destruct s; cbn; split; congruence. Qed.

(** X3: [resolvePath] panics exactly on the paths of one byte, for which
    [path[:2]] is out of range.  Every other path that does not begin with
    "~/" is returned as it is, the empty path too; a path that begins with
    "~/" is joined to the home directory, or returned as it is when the
    current user is not known. *)
Theorem resolvePath_spec (p : Process) (path : string) :
  (resolvePath p path = None <-> String.length path = 1)
  /\ match resolvePath p path with
     | None => True
     | Some resolved =>
       resolved
       = if String.eqb (substring 0 2 path) "~/"
         then match HomeDir p with
              | inl home =>
                filepath_Join p home (substring 2 (String.length path - 2) path)
              | inr _ => path
              end
         else path
     end.
Proof.
  unfold resolvePath.
  destruct (String.eqb_spec path "") as [->|Hne].
  - split; [split; discriminate | reflexivity].
  - assert (Hlen : String.length path <> 0) by (now rewrite String_length_0).
    destruct (Nat.ltb_spec (String.length path) 2) as [Hlt|Hge].
    + split; [split; [lia | reflexivity] | exact I].
    + destruct (String.eqb (substring 0 2 path) "~/").
      * destruct (HomeDir p); (split; [split; [discriminate | lia] | reflexivity]).
      * split; [split; [discriminate | lia] | reflexivity].
Qed.

(** ** The arguments *)

(** X4: when [parseArgs] succeeds, the command line names a network of the
    configuration and at least one command or target after it, and the
    network that is returned has at least one host: its hosts are the hosts
    of the configured network followed by the hosts of the inventory; the
    user, the bastion and the identity file are those of the configured
    network. *)
Theorem parseArgs_success (p : Process) (conf : Supfile.t) (evs : list event)
        (net : Network.t) (commands : list Command.t) :
  parseArgs p conf = (evs, inl (net, commands)) ->
  exists network names net0 inventory,
    Args p = network :: names
    /\ names <> []
    /\ Supfile.Networks conf !! network = Some net0
    /\ ParseInventory p (Network_SetEnvs p net0 (Flags.EnvVars (flag p))) = inl inventory
    /\ Network.Hosts net
       = Network.Hosts (Network_SetEnvs p net0 (Flags.EnvVars (flag p))) ++ inventory
    /\ Network.Hosts net <> []
    /\ Network.User net = Network.User (Network_SetEnvs p net0 (Flags.EnvVars (flag p)))
    /\ Network.Bastion net
       = Network.Bastion (Network_SetEnvs p net0 (Flags.EnvVars (flag p)))
    /\ Network.IdentityFile net
       = Network.IdentityFile (Network_SetEnvs p net0 (Flags.EnvVars (flag p))).
Proof.
  unfold parseArgs. destruct (Args p) as [|network names]; [discriminate|].
  destruct (Supfile.Networks conf !! network) as [net0|] eqn:Hnet; [|discriminate].
  destruct (ParseInventory p _) as [inventory|err] eqn:Hinv; [|discriminate].
  cbn [Network.set_Hosts Network.Hosts].
  destruct (length _ =? 0) eqn:Hhosts; [discriminate|].
  destruct (length (network :: names) <? 2) eqn:Hargs; [discriminate|].
  destruct (argsLoop conf names []) as [commands'|err]; [|discriminate].
  intros [= <- <- <-]. exists network, names, net0, inventory.
  cbn [Network.set_Env Network.set_Hosts Network.Hosts Network.User Network.Bastion
       Network.IdentityFile].
  split; [reflexivity|]. split.
  { intros Hnil. subst names. discriminate. }
  split; [exact Hnet|]. split; [exact Hinv|]. split; [reflexivity|]. split.
  { intros Hnil. rewrite Hnil in Hhosts. discriminate. }
  repeat split.
Qed.

(** The theorem for [sup prod build]. *)
Lemma parseArgs_success_witness :
  exists net commands,
    parseArgs (sample_process "" "" ["prod"; "build"] "") sample_conf
    = ([], inl (net, commands))
    /\ Network.Hosts net = ["web1"; "web2"; "db1"]
    /\ Network.User net = "deploy".
Proof.
  eexists _, _. split; [vm_compute; reflexivity|].
  destruct (parseArgs_success (sample_process "" "" ["prod"; "build"] "") sample_conf
              _ _ _ eq_refl)
    as (network & names & net0 & inventory & Hargs & _ & Hnet & Hinv & Hhosts & _ & Huser & _).
  injection Hargs as <- <-. injection Hnet as <-. injection Hinv as <-.
  split; [exact Hhosts | exact Huser].
Defined.

(** X5: in the environment of the network that [parseArgs] returns, the
    entry SUP_NETWORK is the first argument, and the entry SUP_USER is the
    environment variable SUP_USER when that is not empty and the
    environment variable USER otherwise. *)
Theorem parseArgs_SUP_NETWORK_SUP_USER (p : Process) (conf : Supfile.t)
        (evs : list event) (net : Network.t) (commands : list Command.t) :
  parseArgs p conf = (evs, inl (net, commands)) ->
  EnvList_Get (Network.Env net) "SUP_NETWORK" = hd_error (Args p)
  /\ EnvList_Get (Network.Env net) "SUP_USER"
     = Some (if String.eqb (Getenv p "SUP_USER") "" then Getenv p "USER"
             else Getenv p "SUP_USER").
Proof.
  intros Hok. apply parseArgs_ok in Hok as (_ & env & network & names & -> & -> & _).
  cbn [hd_error]. unfold defaultEnv.
  assert (Hn : forall e k v, k <> "SUP_NETWORK" ->
                 EnvList_Get (EnvList_Set e k v) "SUP_NETWORK" = EnvList_Get e "SUP_NETWORK")
    by (intros; now apply EnvList_Get_Set_ne).
  split.
  - destruct (String.eqb (Getenv p "SUP_USER") ""); cbn [negb];
      (rewrite Hn by discriminate);
      destruct (String.eqb (Getenv p "SUP_TIME") ""); cbn [negb];
      rewrite ?Hn by discriminate; apply EnvList_Get_Set_eq.
  - destruct (String.eqb (Getenv p "SUP_USER") ""); cbn [negb];
      apply EnvList_Get_Set_eq.
Qed.

(** The theorem for [sup prod build], run by the user ci. *)
Lemma parseArgs_SUP_NETWORK_SUP_USER_witness :
  exists net commands,
    parseArgs (sample_process "" "" ["prod"; "build"] "") sample_conf
    = ([], inl (net, commands))
    /\ EnvList_Get (Network.Env net) "SUP_NETWORK" = Some "prod"
    /\ EnvList_Get (Network.Env net) "SUP_USER" = Some "ci".
Proof.
  eexists _, _. split; [vm_compute; reflexivity|].
  exact (parseArgs_SUP_NETWORK_SUP_USER (sample_process "" "" ["prod"; "build"] "")
           sample_conf _ _ _ eq_refl).
Defined.

(** X6: the defaults replace or add the entries SUP_NETWORK, SUP_TIME and
    SUP_USER only: every other entry of the environment of the network
    keeps its value. *)
Theorem defaultEnv_other_keys (p : Process) (env : EnvList) (network key : string) :
  key <> "SUP_NETWORK" -> key <> "SUP_TIME" -> key <> "SUP_USER" ->
  EnvList_Get (defaultEnv p env network) key = EnvList_Get env key.
Proof.
  intros Hn Ht Hu. unfold defaultEnv.
  destruct (String.eqb (Getenv p "SUP_USER") ""); cbn [negb];
    destruct (String.eqb (Getenv p "SUP_TIME") ""); cbn [negb];
    rewrite !EnvList_Get_Set_ne by congruence; reflexivity.
Qed.

(** The theorem at the entry TIER of the network prod. *)
Lemma defaultEnv_other_keys_witness :
  EnvList_Get (defaultEnv (sample_process "" "" ["prod"; "build"] "")
                          [EnvVar.mk "TIER" "live"] "prod") "TIER"
  = Some "live".
Proof.
  exact (defaultEnv_other_keys (sample_process "" "" ["prod"; "build"] "")
           [EnvVar.mk "TIER" "live"] "prod" "TIER"
           ltac:(discriminate) ltac:(discriminate) ltac:(discriminate)).
Defined.

Lemma set_Name_dispatched (conf : Supfile.t) (cmd : Command.t) (name : string) :
  Supfile.Commands conf !! name = Some cmd ->
  dispatched_from conf (Command.set_Name cmd name).
Proof. intros Hcmd. exists cmd. split; [exact Hcmd | reflexivity]. Qed.

Lemma targetCommands_dispatched (conf : Supfile.t) (target : list string)
      (commands : list Command.t) :
  targetCommands conf target = inl commands -> Forall (dispatched_from conf) commands.
Proof.
  revert commands. induction target as [|cmdName rest IH]; intros commands; cbn.
  - intros [= <-]. constructor.
  - destruct (Supfile.Commands conf !! cmdName) as [cmd|] eqn:Hcmd; [|discriminate].
    destruct (targetCommands conf rest) as [commands'|]; [|discriminate].
    intros [= <-]. constructor; [now apply set_Name_dispatched | now apply IH].
Qed.

Lemma resolve_dispatched (conf : Supfile.t) (name : string) (commands : list Command.t) :
  resolve conf name = inl commands -> Forall (dispatched_from conf) commands.
Proof.
  unfold resolve.
  destruct (Supfile.Targets conf !! name) as [target|];
    destruct (Supfile.Commands conf !! name) as [cmd|] eqn:Hcmd.
  - destruct (targetCommands conf target) as [commands'|] eqn:Ht; [|discriminate].
    intros [= <-]. apply Forall_app.
    split; [now apply (targetCommands_dispatched conf target)|].
    constructor; [now apply set_Name_dispatched | constructor].
  - apply targetCommands_dispatched.
  - intros [= <-]. constructor; [now apply set_Name_dispatched | constructor].
  - discriminate.
Qed.

(** X7: every command that the loop over the arguments dispatches is a
    command of the configuration, and carries as its name the key under
    which the configuration holds it, whether it was named on the command
    line or listed by a target. *)
Theorem argsLoop_dispatched (conf : Supfile.t) (names : list string)
        (commands : list Command.t) :
  argsLoop conf names [] = inl commands -> Forall (dispatched_from conf) commands.
Proof.
  rewrite argsLoop_spec. revert commands.
  induction names as [|name rest IH]; intros commands; cbn [dispatchWith].
  - intros [= <-]. constructor.
  - destruct (resolve conf name) as [first|] eqn:Hfirst; [|discriminate].
    destruct (dispatchWith (resolve conf) rest) as [others|]; [|discriminate].
    intros [= <-]. cbn [app]. apply Forall_app. split.
    + now apply (resolve_dispatched conf name).
    + now apply IH.
Qed.

(** The theorem for the argument deploy, a target and a command. *)
Lemma argsLoop_dispatched_witness :
  Forall (dispatched_from sample_conf)
         [sample_command "build" "make" false false;
          sample_command "deploy" "make install" false false].
Proof.
  apply (argsLoop_dispatched sample_conf ["deploy"]). vm_compute. reflexivity.
Defined.

(** X8: an argument that is neither a target nor a command makes the whole
    loop fail, wherever it stands among the arguments: no command list is
    returned, also when the arguments before it were accepted. *)
Theorem argsLoop_unknown_name (conf : Supfile.t) (names : list string) (name : string) :
  In name names ->
  Supfile.Targets conf !! name = None ->
  Supfile.Commands conf !! name = None ->
  exists err, argsLoop conf names [] = inr err.
Proof.
  intros Hin Ht Hc. rewrite argsLoop_spec.
  assert (Hres : resolve conf name = inr (ErrCmd_for name))
    by (unfold resolve; now rewrite Ht, Hc).
  induction names as [|first rest IH]; [contradiction|].
  cbn [dispatchWith]. destruct Hin as [->|Hin].
  - rewrite Hres. eauto.
  - destruct (resolve conf first) as [commands|err]; [|eauto].
    destruct (IH Hin) as [err Herr].
    destruct (dispatchWith (resolve conf) rest); [discriminate | eauto].
Qed.

(** The theorem for [build restart]: restart is not in the configuration. *)
Lemma argsLoop_unknown_name_witness :
  exists err, argsLoop sample_conf ["build"; "restart"] [] = inr err.
Proof.
  apply (argsLoop_unknown_name sample_conf ["build"; "restart"] "restart").
  - right. left. reflexivity.
  - vm_compute. reflexivity.
  - vm_compute. reflexivity.
Defined.

(** ** [main] *)

(** X9: when the arguments dispatch no command at all, as for a target that
    lists no command, [main] passes the filters and the environment and
    then fails in [Run]: it prints "no commands to be run" and exits with
    status 1, and no host has been dialled. *)
Theorem mainWith_no_commands `{colors} (p : Process) (conf : Supfile.t) (evs : list event)
        (net net1 net2 net3 : Network.t) (vars : EnvList) :
  parseArgs p conf = (evs, inl (net, [])) ->
  onlyHosts p net = Go net1 ->
  exceptHosts p net1 = Go net2 ->
  sshConfig p net2 = Go net3 ->
  EnvList_SetEnvs p (mergeEnv conf net3) (Flags.EnvVars (flag p)) = inl vars ->
  mainWith p conf = ([Fprintln_Stderr (errors_New "no commands to be run")], Exited 1).
Proof.
  intros Hparse Honly Hexcept Hssh Hvars.
  pose proof (parseArgs_ok p conf evs net [] Hparse) as [-> _].
  unfold mainWith. now rewrite Hparse, Honly, Hexcept, Hssh, Hvars.
Qed.

(** The theorem for [sup prod noop], where the target noop lists no
    command. *)
Lemma mainWith_no_commands_witness :
  @mainWith ansi (sample_process "" "" ["prod"; "noop"] "") sample_conf_noop
  = ([Fprintln_Stderr (errors_New "no commands to be run")], Exited 1).
Proof.
  refine (@mainWith_no_commands ansi (sample_process "" "" ["prod"; "noop"] "")
            sample_conf_noop _ _ _ _ _ _ _ eq_refl eq_refl eq_refl eq_refl);
    vm_compute; reflexivity.
Defined.

Lemma filter_negb_filter {A : Type} (f : A -> bool) (l : list A) :
  List.filter (fun x => negb (f x)) (List.filter f l) = [].
Proof.
  induction l as [|x l IH]; [reflexivity|]. cbn.
  destruct (f x) eqn:Hx; [|exact IH]. cbn. now rewrite Hx.
Qed.

(** X10: with the same expression for [--only] and [--except], no host is
    left, whatever the hosts and the expression: [main] prints one error
    and exits with status 1 before it connects to any host. *)
Theorem host_filters_same_expression `{colors} (p : Process) (conf : Supfile.t)
        (evs : list event) (net : Network.t) (commands : list Command.t) (R : Regexp p) :
  parseArgs p conf = (evs, inl (net, commands)) ->
  Flags.OnlyHosts (flag p) <> "" ->
  Flags.ExceptHosts (flag p) = Flags.OnlyHosts (flag p) ->
  CompilePOSIX p (Flags.OnlyHosts (flag p)) = inl R ->
  exists msg, mainWith p conf = ([Fprintln_Stderr (errors_New msg)], Exited 1).
Proof.
  intros Hparse Honly Hsame HR.
  pose proof (parseArgs_ok p conf evs net commands Hparse) as [-> _].
  pose proof (onlyHosts_spec p net R Honly HR) as Ho.
  unfold mainWith. rewrite Hparse, Ho.
  destruct (List.filter (MatchString p R) (Network.Hosts net)) as [|h hosts] eqn:Hf.
  - eexists. reflexivity.
  - assert (He : exceptHosts p (Network.set_Hosts net (h :: hosts))
                 = Stop [Fprintln_Stderr
                           (errors_New ("no hosts left after --except '"
                                          +:+ Flags.OnlyHosts (flag p) +:+ "' regexp"))]
                        (Exited 1)).
    { rewrite (exceptHosts_spec p _ R); [| now rewrite Hsame | now rewrite Hsame].
      cbn [Network.set_Hosts Network.Hosts]. rewrite <- Hf.
      now rewrite filter_negb_filter. }
    rewrite He. eexists. reflexivity.
Qed.

(** The theorem for [sup --only web --except web prod build]. *)
Lemma host_filters_same_expression_witness :
  exists msg,
    @mainWith ansi (sample_process "web" "web" ["prod"; "build"] "") sample_conf
    = ([Fprintln_Stderr (errors_New msg)], Exited 1).
Proof.
  refine (@host_filters_same_expression ansi (sample_process "web" "web" ["prod"; "build"] "")
            sample_conf _ _ _ "web" eq_refl _ eq_refl eq_refl).
  discriminate.
Defined.

(** *** The ssh_config file *)

Lemma sshconfigLoop_app (p : Process) (confMap : gmap string SSHHost.t)
      (l1 l2 : list string) (net : Network.t) :
  sshconfigLoop p confMap (l1 ++ l2) net
  = match sshconfigLoop p confMap l1 net with
    | Some net' => sshconfigLoop p confMap l2 net'
    | None => None
    end.
Proof.
  revert net. induction l1 as [|host l1 IH]; intros net; [reflexivity|].
  cbn [app sshconfigLoop]. destruct (confMap !! host) as [conf|]; [|apply IH].
  destruct (resolvePath p (SSHHost.IdentityFile conf)); [apply IH | reflexivity].
Qed.

Lemma sshconfigLoop_no_match (p : Process) (confMap : gmap string SSHHost.t)
      (range : list string) (net : Network.t) :
  Forall (fun host => confMap !! host = None) range ->
  sshconfigLoop p confMap range net = Some net.
Proof.
  induction 1 as [|host range Hhost _ IH]; [reflexivity|].
  cbn [sshconfigLoop]. now rewrite Hhost.
Qed.

Lemma sshconfigLoop_keeps (p : Process) (confMap : gmap string SSHHost.t)
      (range : list string) (net net' : Network.t) :
  sshconfigLoop p confMap range net = Some net' ->
  Network.Env net' = Network.Env net /\ Network.Bastion net' = Network.Bastion net.
Proof.
  revert net. induction range as [|host range IH]; intros net; cbn [sshconfigLoop].
  - intros [= <-]. split; reflexivity.
  - destruct (confMap !! host) as [conf|]; [|apply IH].
    destruct (resolvePath p (SSHHost.IdentityFile conf)); [|discriminate].
    intros Hrest. apply IH in Hrest. exact Hrest.
Qed.

(** X11: when hosts of the network have an entry in the ssh_config file,
    the loop leaves a network with one host only, whatever the number of
    hosts it had: the host name and the port of the entry of the last host
    that has one, with the user and the identity file of that entry; the
    environment and the bastion of the network are kept. *)
Theorem sshconfigLoop_last_match (p : Process) (confMap : gmap string SSHHost.t)
        (pre post : list string) (host : string) (conf : SSHHost.t)
        (net net' : Network.t) :
  confMap !! host = Some conf ->
  Forall (fun later => confMap !! later = None) post ->
  sshconfigLoop p confMap (pre ++ host :: post) net = Some net' ->
  Network.Hosts net' = [SSHHost.HostName conf +:+ ":" +:+ pretty (SSHHost.Port conf)]
  /\ Network.User net' = SSHHost.User conf
  /\ resolvePath p (SSHHost.IdentityFile conf) = Some (Network.IdentityFile net')
  /\ Network.Env net' = Network.Env net
  /\ Network.Bastion net' = Network.Bastion net.
Proof.
  intros Hconf Hpost. rewrite sshconfigLoop_app.
  destruct (sshconfigLoop p confMap pre net) as [net1|] eqn:Hpre; [|discriminate].
  apply sshconfigLoop_keeps in Hpre as [Henv Hbastion].
  cbn [sshconfigLoop]. rewrite Hconf.
  destruct (resolvePath p (SSHHost.IdentityFile conf)) as [identityFile|]; [|discriminate].
  rewrite (sshconfigLoop_no_match p confMap post _ Hpost).
  intros [= <-]. cbn. now rewrite Henv, Hbastion.
Qed.

(** The theorem for the hosts web1, web2 and db1 and an entry for web1. *)
Lemma sshconfigLoop_last_match_witness :
  exists net',
    sshconfigLoop (sample_process "" "" ["prod"; "build"] "")
                   {[ "web1" := sample_sshhost ]} ["web1"; "web2"; "db1"]
                   (sample_network ["web1"; "web2"; "db1"]) = Some net'
    /\ Network.Hosts net' = ["10.0.0.1:2222"]
    /\ Network.User net' = "admin".
Proof.
  eexists. split; [vm_compute; reflexivity|].
  assert (Hweb1 : ({[ "web1" := sample_sshhost ]} : gmap string SSHHost.t) !! "web1"
                  = Some sample_sshhost) by (vm_compute; reflexivity).
  assert (Hlater : Forall (fun later => ({[ "web1" := sample_sshhost ]}
                                          : gmap string SSHHost.t) !! later = None)
                          ["web2"; "db1"])
    by (repeat (constructor; [vm_compute; reflexivity|]); constructor).
  destruct (sshconfigLoop_last_match (sample_process "" "" ["prod"; "build"] "")
              {[ "web1" := sample_sshhost ]} [] ["web2"; "db1"] "web1" sample_sshhost
              (sample_network ["web1"; "web2"; "db1"]) _ Hweb1 Hlater eq_refl)
    as (Hhosts & Huser & _).
  split; [exact Hhosts | exact Huser].
Defined.

(** *** The environment of the run *)




Lemma EnvList_Get_None_keys (e : EnvList) (key : string) :
  EnvList_Get e key = None -> ~ In key (EnvList_keys e).
Proof.
  unfold EnvList_keys. induction e as [|v e IH]; cbn; [tauto|].
  destruct (String.eqb_spec (EnvVar.Key v) key); [discriminate|].
  intros Hget [Heq|Hin]; [contradiction | now apply IH].
Qed.

(** X13: when the keys of the network's environment are distinct, an entry
    of the network takes precedence in the environment of the run over the
    entries of the configuration with the same key; a key that the network
    does not have takes the value of its last entry in the configuration. *)
Theorem mergeEnv_precedence (conf : Supfile.t) (net : Network.t) (key : string) :
  List.NoDup (EnvList_keys (Network.Env net)) ->
  EnvList_Get (mergeEnv conf net) key
  = match EnvList_Get (Network.Env net) key with
    | Some value => Some value
    | None => EnvList_GetLast (Supfile.Env conf) key
    end.
Proof.
  intros Hnd. unfold mergeEnv.
  rewrite EnvList_Get_foldl_Set, EnvList_GetLast_app.
  destruct (EnvList_Get (Network.Env net) key) as [value|] eqn:Hget.
  - now rewrite (EnvList_GetLast_NoDup _ _ _ Hnd Hget).
  - rewrite (EnvList_GetLast_None _ _ (EnvList_Get_None_keys _ _ Hget)).
    now destruct (EnvList_GetLast (Supfile.Env conf) key).
Qed.

(** The theorem for a configuration and a network that both set NAME. *)
Lemma mergeEnv_precedence_witness :
  EnvList_Get (mergeEnv sample_conf
                        (Network.mk [EnvVar.mk "NAME" "blue"; EnvVar.mk "TIER" "live"]
                                    ["web1"] "" "deploy" "")) "NAME"
  = Some "blue".
Proof.
  apply (mergeEnv_precedence sample_conf
           (Network.mk [EnvVar.mk "NAME" "blue"; EnvVar.mk "TIER" "live"]
                       ["web1"] "" "deploy" "") "NAME").
  repeat constructor; cbn; intuition discriminate.
Defined.

(** ** The width of the prefixes *)

Lemma foldl_max_attained (l : list nat) (m : nat) :
  foldl Nat.max m l = m \/ In (foldl Nat.max m l) l.
Proof.
  revert m. induction l as [|x l IH]; intros m; cbn [foldl]; [now left|].
  destruct (IH (Nat.max m x)) as [Heq|Hin].
  - rewrite Heq. destruct (Nat.max_spec m x) as [[_ ->]|[_ ->]]; [right; now left | now left].
  - right. now right.
Qed.

(** X14: draining the channel keeps the clients in the order in which they
    were delivered, and leaves in [maxLen] the largest printable length of
    their prefixes: no client has a longer one, and unless [maxLen] is 0
    some client has exactly that one. *)
Theorem drain_maximum `{colors} (ch : list Client) :
  snd (drain ch 0 []) = ch
  /\ Forall (fun c => snd (Client_Prefix c) <= fst (drain ch 0 [])) ch
  /\ (fst (drain ch 0 []) = 0
      \/ Exists (fun c => snd (Client_Prefix c) = fst (drain ch 0 [])) ch).
Proof.
  rewrite drain_spec. cbn [fst snd app]. split; [reflexivity|]. split.
  - apply List.Forall_forall. intros c Hin. apply foldl_max_elem.
    now apply (in_map (fun c => snd (Client_Prefix c))).
  - destruct (foldl_max_attained (map (fun c => snd (Client_Prefix c)) ch) 0) as [Hz|Hin];
      [now left | right].
    apply in_map_iff in Hin as (c & Hc & Hin).
    apply List.Exists_exists. exists c. split; [exact Hin | exact Hc].
Qed.

Lemma foldl_max_Permutation (l1 l2 : list nat) (m : nat) :
  Permutation l1 l2 -> foldl Nat.max m l1 = foldl Nat.max m l2.
Proof.
  intros Hperm. revert m.
  induction Hperm as [|x l1 l2 _ IH|x y l|l1 l2 l3 _ IH1 _ IH2]; intros m; cbn [foldl].
  - reflexivity.
  - apply IH.
  - f_equal. lia.
  - now rewrite IH1.
Qed.

(** X15: [maxLen] does not depend on the order in which the connectors
    delivered their clients. *)
Theorem drain_maxLen_order `{colors} (ch1 ch2 : list Client) :
  Permutation ch1 ch2 -> fst (drain ch1 0 []) = fst (drain ch2 0 []).
Proof.
  intros Hperm. rewrite !drain_spec. cbn [fst].
  apply foldl_max_Permutation. now apply Permutation_map.
Qed.

(** The theorem for the local client of ci and the remote client of web1,
    delivered in either order. *)
Lemma drain_maxLen_order_witness :
  fst (@drain ansi [Local local_ci; Remote remote_web1] 0 [])
  = fst (@drain ansi [Remote remote_web1; Local local_ci] 0 []).
Proof.
  apply (@drain_maxLen_order ansi). apply perm_swap.
Defined.

(** X16: for a client of the run, the prefix that the run loop emits is
    never printed wider than [maxLen] and never narrower than the client's
    own prefix: the padding adds spaces up to [maxLen] or nothing. *)
Theorem paddedPrefix_within_maxLen `{colors} (ch : list Client) (c : Client) :
  In c ch ->
  snd (Client_Prefix c) <= printableLen c (paddedPrefix true (fst (drain ch 0 [])) c)
  /\ printableLen c (paddedPrefix true (fst (drain ch 0 [])) c) <= fst (drain ch 0 []).
Proof.
  intros Hin. pose proof (drain_maxLen_bound ch c Hin) as Hbound.
  destruct (Nat.lt_ge_cases (String.length (fst (Client_Prefix c))) (fst (drain ch 0 [])))
    as [Hlt|Hge].
  - rewrite (paddedPrefix_aligned _ c Hlt). lia.
  - destruct (paddedPrefix_unpadded _ c Hge) as [_ ->]. lia.
Qed.

(** The theorem for the remote client of web1 beside the local client. *)
Lemma paddedPrefix_within_maxLen_witness :
  14 <= @printableLen ansi (Remote remote_web1)
          (@paddedPrefix ansi true
             (fst (@drain ansi [Local local_ci; Remote remote_web1] 0 []))
             (Remote remote_web1))
  /\ @printableLen ansi (Remote remote_web1)
       (@paddedPrefix ansi true
          (fst (@drain ansi [Local local_ci; Remote remote_web1] 0 []))
          (Remote remote_web1))
     <= 15.
Proof.
  apply (@paddedPrefix_within_maxLen ansi [Local local_ci; Remote remote_web1]
           (Remote remote_web1)).
  right. left. reflexivity.
Defined.

(** ** The clients of a task *)

Lemma Client_Wait_ok (w : World) (r : ref) (c c' : Client) (task : Task.t) :
  Client_Wait w r c task = (c', None) -> Client_running c' = false.
Proof.
  destruct c as [l|s]; cbn.
  - unfold LocalhostClient.Wait. destruct (LocalhostClient.running l); cbn.
    + intros [= <- _]. reflexivity.
    + discriminate.
  - intros [= <- _]. reflexivity.
Qed.

Lemma Client_Run_ok (w : World) (r : ref) (c c' : Client) (task : Task.t) :
  Client_Run w r c task = (c', None) -> Client_running c' = true.
Proof.
  destruct c as [l|s]; cbn.
  - destruct (LocalhostClient.Run (exec_start w r task) l task) as [l' e] eqn:Hrun.
    intros [= <- ->].
    destruct (LocalhostClient.running l) eqn:Hr.
    + rewrite (LocalhostClient_Run_running _ l task Hr) in Hrun. discriminate.
    + now rewrite (LocalhostClient_Run_started _ l l' task Hr Hrun).
  - unfold SSHClient.Run. destruct (SSHClient.running s); [discriminate|].
    destruct (ssh_start w r task); [discriminate|]. intros [= <-]. reflexivity.
Qed.

Lemma Client_Run_running (w : World) (r : ref) (c : Client) (task : Task.t) :
  Client_running c = true -> exists err, snd (Client_Run w r c task) = Some err.
Proof.
  destruct c as [l|s]; cbn; intros Hr.
  - rewrite (LocalhostClient_Run_running _ l task Hr). eauto.
  - unfold SSHClient.Run. rewrite Hr. eauto.
Qed.

Lemma update_lookup_eq (r : ref) (c c0 : Client) (st : state) :
  store st !! r = Some c0 -> store (update r c st) !! r = Some c.
Proof. intros Hc. cbn. apply list_lookup_insert_eq. now apply lookup_lt_Some in Hc. Qed.

Lemma update_lookup_ne (r r' : ref) (c : Client) (st : state) :
  r <> r' -> store (update r c st) !! r' = store st !! r'.
Proof. intros Hne. cbn. now apply list_lookup_insert_ne. Qed.

Lemma waiters_ok `{colors} (w : World) (sup : Stackup.t) (maxLen : nat) (task : Task.t)
      (cs : list ref) (st st' : state) :
  waiters w sup maxLen task cs st = (st', None) ->
  (forall r, In r cs -> exists c, store st' !! r = Some c /\ Client_running c = false)
  /\ (forall r, ~ In r cs -> store st' !! r = store st !! r)
  /\ out st' = out st
  /\ length (store st') = length (store st).
Proof.
  revert st. induction cs as [|r0 cs IH]; intros st.
  - cbn. intros [= <-]. repeat split. intros r [].
  - cbn [waiters]. destruct (store st !! r0) as [c|] eqn:Hc; [|discriminate].
    destruct (Client_Wait w r0 c task) as [c' [err|]] eqn:Hwait.
    { destruct (waiterFailed _ _ _ _). discriminate. }
    intros Hrest. apply IH in Hrest as (Hin & Hout & Hevs & Hlen).
    split; [|split; [|split]].
    + intros r Hr. destruct (in_dec Nat.eq_dec r cs) as [Hcs|Hcs]; [now apply Hin|].
      destruct Hr as [<-|Hr]; [|contradiction].
      exists c'. rewrite (Hout r0 Hcs), (update_lookup_eq r0 c' c st Hc).
      split; [reflexivity | now apply (Client_Wait_ok w r0 c c' task)].
    + intros r Hr. rewrite Hout by (intros Hcs; apply Hr; now right).
      apply update_lookup_ne. intros ->. apply Hr. now left.
    + exact Hevs.
    + rewrite Hlen. cbn. apply length_insert.
Qed.

(** X17: when every waiter of a task finds its client's [Wait] without
    error, the run has printed nothing more, no client has been added or
    removed, and every client of the task is left not running, so that the
    next task can be started on it. *)
Theorem waiters_leave_stopped `{colors} (w : World) (sup : Stackup.t) (maxLen : nat)
        (task : Task.t) (cs : list ref) (st st' : state) :
  waiters w sup maxLen task cs st = (st', None) ->
  Forall (fun r => exists c, store st' !! r = Some c /\ Client_running c = false) cs
  /\ out st' = out st
  /\ length (store st') = length (store st).
Proof.
  intros Hok. apply waiters_ok in Hok as (Hin & _ & Hout & Hlen).
  split; [|split; [exact Hout | exact Hlen]].
  apply List.Forall_forall. exact Hin.
Qed.

(** The theorem for a remote client whose command exits without error. *)
Lemma waiters_leave_stopped_witness :
  exists st',
    @waiters ansi (sample_world exit_ok) sample_sup 0 (Task.mk "true" [0] None) [0]
             (mkState [Remote sample_remote] []) = (st', None)
    /\ Forall (fun r => exists c, store st' !! r = Some c /\ Client_running c = false) [0].
Proof.
  eexists. split; [reflexivity|].
  exact (proj1 (@waiters_leave_stopped ansi (sample_world exit_ok) sample_sup 0
                  (Task.mk "true" [0] None) [0] (mkState [Remote sample_remote] []) _
                  eq_refl)).
Defined.

Lemma startClients_ok `{colors} (w : World) (sup : Stackup.t) (maxLen : nat)
      (task : Task.t) (cs : list ref) (writers writers' : list (ref * option pipe))
      (pumps pumps' : list (ref * string)) (st st' : state) :
  startClients w sup maxLen task cs writers pumps st = (st', inl (writers', pumps')) ->
  map fst writers' = map fst writers ++ cs
  /\ map fst pumps' = map fst pumps ++ cs
  /\ out st' = out st ++ map (fun r => Started r (Task.Run task)) cs
  /\ (forall r, In r cs -> exists c, store st' !! r = Some c /\ Client_running c = true)
  /\ (forall r, ~ In r cs -> store st' !! r = store st !! r).
Proof.
  revert writers pumps st. induction cs as [|r0 cs IH]; intros writers pumps st.
  - cbn. intros [= <- <- <-]. rewrite !app_nil_r. repeat split. intros r [].
  - cbn [startClients]. destruct (store st !! r0) as [c|] eqn:Hc; [|discriminate].
    destruct (Client_Run w r0 c task) as [c' [err|]] eqn:Hrun; [discriminate|].
    intros Hrest. apply IH in Hrest as (Hw & Hp & Hevs & Hin & Hout).
    split; [|split; [|split; [|split]]].
    + rewrite Hw, map_app. cbn. now rewrite <- app_assoc.
    + rewrite Hp, map_app. cbn. now rewrite <- app_assoc.
    + rewrite Hevs. cbn. now rewrite <- app_assoc.
    + intros r Hr. destruct (in_dec Nat.eq_dec r cs) as [Hcs|Hcs]; [now apply Hin|].
      destruct Hr as [<-|Hr]; [|contradiction].
      exists c'. rewrite (Hout r0 Hcs). cbn [emit store].
      rewrite (update_lookup_eq r0 c' c st Hc).
      split; [reflexivity | now apply (Client_Run_ok w r0 c c' task)].
    + intros r Hr. rewrite Hout by (intros Hcs; apply Hr; now right).
      cbn [emit store]. apply update_lookup_ne. intros ->. apply Hr. now left.
Qed.

(** X18: when the start loop of a task succeeds, it has started the task's
    snippet on the clients of the task, in their order and on no other
    client; the stdin writers it recorded and the pumps it launched are
    those of the clients of the task, in the same order; and every client
    of the task is running. *)
Theorem startClients_started `{colors} (w : World) (sup : Stackup.t) (maxLen : nat)
        (task : Task.t) (cs : list ref) (writers : list (ref * option pipe))
        (pumps : list (ref * string)) (st st' : state) :
  startClients w sup maxLen task cs [] [] st = (st', inl (writers, pumps)) ->
  map fst writers = cs
  /\ map fst pumps = cs
  /\ out st' = out st ++ map (fun r => Started r (Task.Run task)) cs
  /\ Forall (fun r => exists c, store st' !! r = Some c /\ Client_running c = true) cs.
Proof.
  intros Hok. apply startClients_ok in Hok as (Hw & Hp & Hevs & Hin & _).
  repeat split; try assumption. apply List.Forall_forall. exact Hin.
Qed.

(** The theorem for two local clients that have connected. *)
Lemma startClients_started_witness :
  exists st' writers pumps,
    @startClients ansi (sample_world exit_ok) sample_sup 15 (Task.mk "true" [0; 1] None)
                  [0; 1] [] [] (mkState [Local local_ci; Local local_ci] [])
    = (st', inl (writers, pumps))
    /\ map fst writers = [0; 1]
    /\ out st' = [Started 0 "true"; Started 1 "true"].
Proof.
  eexists _, _, _. split; [reflexivity|].
  destruct (@startClients_started ansi (sample_world exit_ok) sample_sup 15
              (Task.mk "true" [0; 1] None) [0; 1] _ _
              (mkState [Local local_ci; Local local_ci] []) _ eq_refl)
    as (Hw & _ & Hevs & _).
  split; [exact Hw | exact Hevs].
Defined.

Lemma startClients_running_fails `{colors} (w : World) (sup : Stackup.t) (maxLen : nat)
      (task : Task.t) (cs : list ref) (writers : list (ref * option pipe))
      (pumps : list (ref * string)) (st : state) (r : ref) (c : Client) :
  store st !! r = Some c -> Client_running c = true -> In r cs ->
  exists o, snd (startClients w sup maxLen task cs writers pumps st) = inr o.
Proof.
  intros Hc Hrun Hin. revert writers pumps st Hc.
  induction cs as [|r0 cs IH]; intros writers pumps st Hc; [contradiction|].
  cbn [startClients]. destruct (Nat.eq_dec r0 r) as [->|Hne].
  - rewrite Hc. destruct (Client_Run_running w r c task Hrun) as [err Herr].
    destruct (Client_Run w r c task) as [c' e]. cbn in Herr. subst e. cbn. eauto.
  - destruct Hin as [Heq|Hin]; [contradiction|].
    destruct (store st !! r0) as [c0|] eqn:Hc0; [|cbn; eauto].
    destruct (Client_Run w r0 c0 task) as [c0' [err|]]; [cbn; eauto|].
    apply (IH Hin). cbn [emit store]. now rewrite update_lookup_ne.
Qed.

Lemma startClients_NoDup `{colors} (w : World) (sup : Stackup.t) (maxLen : nat)
      (task : Task.t) (cs : list ref) (writers writers' : list (ref * option pipe))
      (pumps pumps' : list (ref * string)) (st st' : state) :
  startClients w sup maxLen task cs writers pumps st = (st', inl (writers', pumps')) ->
  List.NoDup cs.
Proof.
  revert writers pumps st. induction cs as [|r0 cs IH]; intros writers pumps st.
  - intros _. constructor.
  - cbn [startClients]. destruct (store st !! r0) as [c|] eqn:Hc; [|discriminate].
    destruct (Client_Run w r0 c task) as [c' [err|]] eqn:Hrun; [discriminate|].
    intros Hrest. constructor; [|now apply IH in Hrest].
    intros Hin.
    destruct (startClients_running_fails w sup maxLen task cs
                (writers ++ [(r0, Client_Stdin c')])
                (pumps ++ [(r0, paddedPrefix (Stackup.prefix sup) maxLen c)])
                (emit [Started r0 (Task.Run task)] (update r0 c' st)) r0 c')
      as [o Ho]; [| now apply (Client_Run_ok w r0 c c' task) | exact Hin |].
    + cbn [emit store]. now apply (update_lookup_eq r0 c' c st).
    + rewrite Hrest in Ho. discriminate.
Qed.

(** X19: a task that lists the same client twice cannot be started: the
    second start of that client finds it running and fails, so the start
    loop succeeds only for tasks whose clients are distinct. *)
Theorem startClients_distinct `{colors} (w : World) (sup : Stackup.t) (maxLen : nat)
        (task : Task.t) (cs : list ref) (writers : list (ref * option pipe))
        (pumps : list (ref * string)) (st st' : state) :
  startClients w sup maxLen task cs [] [] st = (st', inl (writers, pumps)) ->
  List.NoDup cs.
Proof. apply startClients_NoDup. Qed.

(** The theorem for the task of two local clients. *)
Lemma startClients_distinct_witness : List.NoDup [0; 1].
Proof.
  exact (@startClients_distinct ansi (sample_world exit_ok) sample_sup 15
           (Task.mk "true" [0; 1] None) [0; 1] _ _
           (mkState [Local local_ci; Local local_ci] []) _ eq_refl).
Defined.

(** ** The teardown *)

Lemma closeRemotes_In (clients : list Client) (k i : nat) (s : SSHClient.t) :
  clients !! i = Some (Remote s) ->
  In (Closed (k + i)) (closeRemotes (zip (seq k (length clients)) clients)).
Proof.
  revert k i. induction clients as [|c clients IH]; intros k i; [discriminate|].
  cbn [length seq zip zip_with closeRemotes]. destruct i as [|i]; cbn [lookup list_lookup].
  - intros [= ->]. rewrite Nat.add_0_r. now left.
  - intros Hi. replace (k + S i) with (S k + i) by lia.
    destruct c; [|right]; now apply IH.
Qed.

(** X21: when [Run] returns, with or without an error, either it was given
    no command and did nothing, or it dialled the bastion only and failed
    there, or its last act is [closeRemotes] on the clients that
    connected: every remote client among them has been closed. *)
Theorem Run_returns_closes `{colors} (w : World) (sup : Stackup.t) (net : Network.t)
        (envVars : EnvList) (commands : list Command.t) (evs : list event)
        (err : option error) :
  Run w sup net envVars commands = (evs, Returned err) ->
  let clients := connectedClients w net (EnvList_AsExport envVars) in
  (commands = [] /\ evs = [])
  \/ evs = [Dial false (Network.Bastion net)]
  \/ ((exists before,
         evs = before ++ closeRemotes (zip (seq 0 (length clients)) clients))
      /\ forall r s, clients !! r = Some (Remote s) -> In (Closed r) evs).
Proof.
  intros Hrun clients. unfold Run in Hrun.
  destruct commands as [|cmd rest]; [left; now injection Hrun as <- _|].
  cbn [length Nat.eqb] in Hrun.
  destruct (connectBastion w net) as [berr|];
    [right; left; now injection Hrun as <- _|].
  cbv zeta in Hrun. unfold runConnected, connectAll in Hrun.
  destruct (crashed _); [discriminate|].
  rewrite drain_spec in Hrun. cbn [app] in Hrun. fold (connectedClients w net
    (EnvList_AsExport envVars)) in Hrun. fold clients in Hrun.
  assert (Hsuffix : forall before,
             evs = before ++ closeRemotes (zip (seq 0 (length clients)) clients) ->
             (exists before, evs = before
                               ++ closeRemotes (zip (seq 0 (length clients)) clients))
             /\ forall r s, clients !! r = Some (Remote s) -> In (Closed r) evs).
  { intros before ->. split; [eauto|]. intros r s Hr. apply in_or_app. right.
    exact (closeRemotes_In clients 0 r s Hr). }
  right; right.
  destruct (faileds _); [|injection Hrun as <- _; eapply Hsuffix; reflexivity].
  destruct (runCommands _ _ _ _ _ _ _) as [st [[e| |]|]];
    try discriminate; injection Hrun as <- _; eapply Hsuffix; reflexivity.
Qed.

(** The theorem for the hosts localhost and web1: the remote client of
    web1 is closed at the end of the run. *)
Lemma Run_returns_closes_witness :
  In (Closed 1)
     (fst (@Run ansi (sample_world exit_ok) sample_sup (sample_network ["localhost"; "web1"]) []
                [sample_command "hi" "echo hello" false false])).
Proof.
  destruct (@Run_returns_closes ansi (sample_world exit_ok) sample_sup
              (sample_network ["localhost"; "web1"]) []
              [sample_command "hi" "echo hello" false false] _ _ eq_refl)
    as [[Hnone _]|[Hbastion|[_ Hclosed]]].
  - discriminate Hnone.
  - discriminate Hbastion.
  - exact (Hclosed 1 remote_web1 eq_refl).
Defined.

(** ** A task from start to join *)

(** X22: when a task has run to its join without an error, an exit or a
    panic, its clients were distinct and each of them is left not running:
    the clients of a task that has ended can be started again by the next
    task. *)
Theorem runTask_leaves_stopped `{colors} (w : World) (sup : Stackup.t) (maxLen : nat)
        (clients : list ref) (task : Task.t) (st st' : state) :
  runTask w sup maxLen clients task st = (st', None) ->
  List.NoDup (Task.Clients task)
  /\ Forall (fun r => exists c, store st' !! r = Some c /\ Client_running c = false)
            (Task.Clients task).
Proof.
  unfold runTask.
  destruct (startClients w sup maxLen task (Task.Clients task) [] [] st)
    as [st1 [[writers pumps]|o1]] eqn:Hstart; [|discriminate].
  destruct (stdinPump w clients task writers st1) as [st2 [o2|]]; [discriminate|].
  intros Hwait. split.
  - now apply startClients_NoDup in Hstart.
  - apply waiters_ok in Hwait as (Hin & _). apply List.Forall_forall.
    intros r Hr. apply Hin. now apply (waitOrder_In w task).
Qed.

(** The theorem for a task on two local clients whose commands exit
    without error. *)
Lemma runTask_leaves_stopped_witness :
  exists st',
    @runTask ansi (sample_world exit_ok) sample_sup 15 [0; 1] (Task.mk "true" [0; 1] None)
             (mkState [Local local_ci; Local local_ci] []) = (st', None)
    /\ Forall (fun r => exists c, store st' !! r = Some c /\ Client_running c = false)
              [0; 1].
Proof.
  eexists. split; [reflexivity|].
  exact (proj2 (@runTask_leaves_stopped ansi (sample_world exit_ok) sample_sup 15 [0; 1]
                  (Task.mk "true" [0; 1] None)
                  (mkState [Local local_ci; Local local_ci] []) _ eq_refl)).
Defined.

(** * The hosts, the clients and the environment of a run *)

(** ** The clients of the hosts *)



(** ** The host filters *)

Lemma parseArgs_hosts (p : Process) (conf : Supfile.t) (evs : list event)
      (net : Network.t) (commands : list Command.t) :
  parseArgs p conf = (evs, inl (net, commands)) -> Network.Hosts net <> [].
Proof.
  unfold parseArgs. destruct (Args p) as [|network names]; [discriminate|].
  destruct (Supfile.Networks conf !! network) as [net0|]; [|discriminate].
  destruct (ParseInventory p _) as [inventory|err]; [|discriminate].
  cbn [Network.set_Hosts Network.Hosts].
  destruct (length _ =? 0) eqn:Hhosts; [discriminate|].
  destruct (length (network :: names) <? 2); [discriminate|].
  destruct (argsLoop conf names []); [|discriminate].
  intros [= <- <- <-]. cbn. intros Hnil. rewrite Hnil in Hhosts. discriminate.
Qed.

Lemma set_Hosts_same (net : Network.t) : Network.set_Hosts net (Network.Hosts net) = net.
Proof. now destruct net. Qed.

Lemma set_Hosts_twice (net : Network.t) (hosts hosts' : list string) :
  Network.set_Hosts (Network.set_Hosts net hosts) hosts' = Network.set_Hosts net hosts'.
Proof. reflexivity. Qed.

(** What [--only] leaves of the hosts: all of them without the flag, and
    with it the hosts that match, in their order. *)
Lemma onlyHosts_hosts (p : Process) (net : Network.t) (R1 : Regexp p) :
  (Flags.OnlyHosts (flag p) <> "" -> CompilePOSIX p (Flags.OnlyHosts (flag p)) = inl R1) ->
  onlyHosts p net
  = match (if String.eqb (Flags.OnlyHosts (flag p)) "" then Network.Hosts net
           else List.filter (MatchString p R1) (Network.Hosts net)) with
    | [] => if String.eqb (Flags.OnlyHosts (flag p)) "" then Go net
            else Stop [Fprintln_Stderr
                         (errors_New ("no hosts match --only '" +:+ Flags.OnlyHosts (flag p)
                                        +:+ "' regexp"))] (Exited 1)
    | hosts => Go (Network.set_Hosts net hosts)
    end.
Proof.
  intros HR1. destruct (String.eqb_spec (Flags.OnlyHosts (flag p)) "") as [Hflag|Hflag].
  - unfold onlyHosts. rewrite Hflag. cbn.
    destruct (Network.Hosts net) eqn:Hhosts; [reflexivity|].
    now rewrite <- Hhosts, set_Hosts_same.
  - rewrite (onlyHosts_spec p net R1 Hflag (HR1 Hflag)).
    now destruct (List.filter _ _).
Qed.

Lemma exceptHosts_hosts (p : Process) (net : Network.t) (R2 : Regexp p) :
  (Flags.ExceptHosts (flag p) <> "" -> CompilePOSIX p (Flags.ExceptHosts (flag p)) = inl R2) ->
  exceptHosts p net
  = match (if String.eqb (Flags.ExceptHosts (flag p)) "" then Network.Hosts net
           else List.filter (fun host => negb (MatchString p R2 host)) (Network.Hosts net)) with
    | [] => if String.eqb (Flags.ExceptHosts (flag p)) "" then Go net
            else Stop [Fprintln_Stderr
                         (errors_New ("no hosts left after --except '"
                                        +:+ Flags.OnlyHosts (flag p) +:+ "' regexp"))]
                      (Exited 1)
    | hosts => Go (Network.set_Hosts net hosts)
    end.
Proof.
  intros HR2. destruct (String.eqb_spec (Flags.ExceptHosts (flag p)) "") as [Hflag|Hflag].
  - unfold exceptHosts. rewrite Hflag. cbn.
    destruct (Network.Hosts net) eqn:Hhosts; [reflexivity|].
    now rewrite <- Hhosts, set_Hosts_same.
  - rewrite (exceptHosts_spec p net R2 Hflag (HR2 Hflag)).
    now destruct (List.filter _ _).
Qed.

(** C5: let [parseArgs] have returned a network with the hosts [H], let
    [H1] be [H] without [--only] and, with [--only R1], the hosts of [H]
    that match [R1], in their order; and let [H2] be [H1] without
    [--except] and, with [--except R2], the hosts of [H1] that do not match
    [R2], in their order.  When [H1] is empty, or [H1] is not and [H2] is,
    [main] prints one error and exits with status 1; it has dialled no
    host.  Otherwise [main] goes on with the network whose hosts are [H2]:
    through the ssh_config step and the environment, and [Run] is called on
    the network that results. *)
Theorem host_filters `{colors} (p : Process) (conf : Supfile.t) (evs : list event)
        (net : Network.t) (commands : list Command.t) (R1 R2 : Regexp p) :
  parseArgs p conf = (evs, inl (net, commands)) ->
  (Flags.OnlyHosts (flag p) <> "" -> CompilePOSIX p (Flags.OnlyHosts (flag p)) = inl R1) ->
  (Flags.ExceptHosts (flag p) <> "" -> CompilePOSIX p (Flags.ExceptHosts (flag p)) = inl R2) ->
  let H1 := if String.eqb (Flags.OnlyHosts (flag p)) "" then Network.Hosts net
            else List.filter (MatchString p R1) (Network.Hosts net) in
  let H2 := if String.eqb (Flags.ExceptHosts (flag p)) "" then H1
            else List.filter (fun host => negb (MatchString p R2 host)) H1 in
  match H1, H2 with
  | [], _ =>
    mainWith p conf
    = ([Fprintln_Stderr (errors_New ("no hosts match --only '" +:+ Flags.OnlyHosts (flag p)
                                       +:+ "' regexp"))], Exited 1)
  | _ :: _, [] =>
    mainWith p conf
    = ([Fprintln_Stderr (errors_New ("no hosts left after --except '"
                                       +:+ Flags.OnlyHosts (flag p) +:+ "' regexp"))],
       Exited 1)
  | _ :: _, _ :: _ =>
    forall net3 vars,
      sshConfig p (Network.set_Hosts net H2) = Go net3 ->
      EnvList_SetEnvs p (mergeEnv conf net3) (Flags.EnvVars (flag p)) = inl vars ->
      mainWith p conf = afterRun (Run (world p) (appOf p conf) net3 vars commands)
  end.
Proof.
  intros Hparse HR1 HR2 H1 H2.
  pose proof (parseArgs_ok p conf evs net commands Hparse) as [-> _].
  pose proof (parseArgs_hosts p conf [] net commands Hparse) as Hhosts.
  pose proof (onlyHosts_hosts p net R1 HR1) as Ho. fold H1 in Ho.
  assert (Honly : H1 = [] -> Flags.OnlyHosts (flag p) <> "").
  { intros Hnil Hflag. subst H1. rewrite Hflag in Hnil. cbn in Hnil. contradiction. }
  unfold mainWith. rewrite Hparse, Ho.
  destruct H1 as [|h1 H1'] eqn:HH1.
  { destruct (String.eqb_spec (Flags.OnlyHosts (flag p)) "") as [Hflag|_]; [|reflexivity].
    now contradiction (Honly eq_refl). }
  pose proof (exceptHosts_hosts p (Network.set_Hosts net (h1 :: H1')) R2 HR2) as He.
  cbn [Network.set_Hosts Network.Hosts] in He. fold H2 in He. rewrite He.
  destruct H2 as [|h2 H2'] eqn:HH2.
  { destruct (String.eqb_spec (Flags.ExceptHosts (flag p)) "") as [Hflag|_]; [|reflexivity].
    subst H2. discriminate. }
  intros net3 vars Hssh Hvars.
  unfold Network.set_Hosts in Hssh |- *.
  cbn [Network.Env Network.Hosts Network.Bastion Network.User Network.IdentityFile]
    in Hssh |- *.
  rewrite Hssh, Hvars.
  unfold afterRun, appOf. cbn [app].
  now destruct (Run _ _ _ _ _) as [evs' [[err|]|code|]].
Qed.

(** The theorem for the network prod, whose hosts are web1, web2 and db1.
    No host matches zzz; web leaves none of its own hosts as the exception;
    web alone selects web1 and web2, the exception web1 alone leaves web2
    and db1, and both together leave web2: the run dials these hosts and no
    other. *)
Lemma host_filters_witness :
  @mainWith ansi (sample_process "zzz" "web" ["prod"; "build"] "") sample_conf
  = ([Fprintln_Stderr (errors_New "no hosts match --only 'zzz' regexp")], Exited 1)
  /\ @mainWith ansi (sample_process "web" "web" ["prod"; "build"] "") sample_conf
     = ([Fprintln_Stderr (errors_New "no hosts left after --except 'web' regexp")], Exited 1)
  /\ @mainWith ansi (sample_process "web" "" ["prod"; "build"] "") sample_conf
     = ([Dial false "web1"; Dial false "web2"; Started 0 "make"; Started 1 "make";
         Stdout_line (ESC +:+ "[32mdeploy@web1 | hello");
         Stdout_line (ESC +:+ "[33mdeploy@web2 | hello"); Closed 0; Closed 1],
        Returned None)
  /\ @mainWith ansi (sample_process "" "web1" ["prod"; "build"] "") sample_conf
     = ([Dial false "web2"; Dial false "db1"; Started 0 "make"; Started 1 "make";
         Stdout_line (ESC +:+ "[32mdeploy@web2 | hello");
         Stdout_line (ESC +:+ "[33mdeploy@db1 | hello"); Closed 0; Closed 1],
        Returned None)
  /\ @mainWith ansi (sample_process "web" "web1" ["prod"; "build"] "") sample_conf
     = ([Dial false "web2"; Started 0 "make";
         Stdout_line (ESC +:+ "[32mdeploy@web2 | hello"); Closed 0],
        Returned None).
Proof.
  split; [|split; [|split; [|split]]].
  - exact (@host_filters ansi (sample_process "zzz" "web" ["prod"; "build"] "") sample_conf
             _ _ _ "zzz" "web" eq_refl (fun _ => eq_refl) (fun _ => eq_refl)).
  - exact (@host_filters ansi (sample_process "web" "web" ["prod"; "build"] "") sample_conf
             _ _ _ "web" "web" eq_refl (fun _ => eq_refl) (fun _ => eq_refl)).
  - exact (@host_filters ansi (sample_process "web" "" ["prod"; "build"] "") sample_conf
             _ _ _ "web" "" eq_refl (fun _ => eq_refl) (fun _ => eq_refl)
             _ _ eq_refl eq_refl).
  - exact (@host_filters ansi (sample_process "" "web1" ["prod"; "build"] "") sample_conf
             _ _ _ "" "web1" eq_refl (fun _ => eq_refl) (fun _ => eq_refl)
             _ _ eq_refl eq_refl).
  - exact (@host_filters ansi (sample_process "web" "web1" ["prod"; "build"] "") sample_conf
             _ _ _ "web" "web1" eq_refl (fun _ => eq_refl) (fun _ => eq_refl)
             _ _ eq_refl eq_refl).
Defined.

(** ** The entry SUP_TIME of the environment of the run *)










